(** * vo_kitty: the kitty graphics-protocol video output of mpv

    A shallow embedding of [video/out/vo_kitty.c].  The driver's [struct priv]
    and the fields of [struct vo] it touches are records, C [int]s are
    integers with their 32-bit wrap-around written out, pointers are
    addresses, and every call that leaves the file (stdio, the logger, the
    kernel, the scaler, the overlay renderer) is recorded in a trace and,
    where it acquires or releases something, in a table of what the process
    holds.  What those calls answer is not decided by the driver: each
    callback receives it in an [env]. *)

From Stdlib Require Import ZArith List String Ascii Bool Strings.Byte DecimalString Lia.
Import ListNotations.
Open Scope Z_scope.

(** ** C integers *)

Module CInt.

Definition int_min : Z := - 2 ^ 31.
Definition int_max : Z := 2 ^ 31 - 1.

(** Value of an integer expression stored into an [int]. *)
Definition wrap (z : Z) : Z := (z + 2 ^ 31) mod 2 ^ 32 - 2 ^ 31.

(** Value of an integer expression stored into an [unsigned int]. *)
Definition uwrap (z : Z) : Z := z mod 2 ^ 32.

Definition in_range (z : Z) : Prop := int_min <= z <= int_max.

Definition add (a b : Z) : Z := wrap (a + b).
Definition sub (a b : Z) : Z := wrap (a - b).
Definition mul (a b : Z) : Z := wrap (a * b).

(** C99 division truncates toward zero. *)
Definition div (a b : Z) : Z := wrap (Z.quot a b).

(** [int * unsigned]: the [int] is converted, the product is unsigned. *)
Definition umul (a b : Z) : Z := uwrap (uwrap a * uwrap b).

End CInt.

(** ** Constants of the file *)

Definition TERMINAL_FALLBACK_PX_WIDTH : Z := 320.
Definition TERMINAL_FALLBACK_PX_HEIGHT : Z := 240.
Definition SHM_NAME : string := "/kitty_img".
Definition SHM_NAME_BASE64 : string := "a2l0dHlfaW1n".

Definition ESC : string := String (ascii_of_nat 27) EmptyString.

(** [printf]'s [%d] and [%u] conversions of an [int] argument. *)
Definition fmt_d (z : Z) : string := NilZero.string_of_int (Z.to_int z).
Definition fmt_u (z : Z) : string :=
  NilZero.string_of_uint (N.to_uint (Z.to_N (CInt.uwrap z))).

Definition ESC_GOTOXY (row col : Z) : string :=
  ESC ++ "[" ++ fmt_d row ++ ";" ++ fmt_d col ++ "f".
Definition ESC_HIDE_CURSOR : string := ESC ++ "[?25l".
Definition ESC_RESTORE_CURSOR : string := ESC ++ "[?25h".
Definition ESC_CLEAR_SCREEN : string := ESC ++ "[2J".

(** The format string of [flip_page]'s second [printf], filled in. *)
Definition kitty_transfer (w h : Z) (name64 : string) : string :=
  ESC ++ "_Ga=T,f=32,t=s,s=" ++ fmt_u w ++ ",v=" ++ fmt_u h ++ ";"
      ++ name64 ++ ESC ++ "\".

Definition depth : Z := 4.

(** Pointers are addresses. [MAP_FAILED] is [(void * ) -1]. *)
Definition NULL : Z := 0.
Definition MAP_FAILED : Z := -1.

(** ** Data of the host that the driver reads and writes *)

Record mp_rect := mk_rect { x0 : Z; y0 : Z; x1 : Z; y1 : Z }.

Record mp_osd_res := mk_osd_res { res_w : Z; res_h : Z }.

Record mp_image_params := mk_params {
  imgfmt : Z;
  par_w : Z;
  par_h : Z;
  p_w : Z;
  p_h : Z
}.

Record mp_sws_context := mk_sws {
  sws_src : mp_image_params;
  sws_dst : mp_image_params
}.

(** The RGBA raster the driver owns: its size, the stride of plane 0 and the
    bytes of plane 0. *)
Record mp_image := mk_image {
  im_w : Z;
  im_h : Z;
  stride0 : Z;
  planes0 : list byte
}.

(** A decoded picture handed in by the host.  The driver reads its
    timestamp and the alignment of its format and passes the rest on. *)
Record src_image := mk_src {
  pts : Z;
  align_x : Z;
  align_y : Z;
  pixels : list byte
}.

Record vo_frame := mk_frame {
  current : option src_image;
  repeat : bool;
  redraw : bool
}.

(** ** struct priv *)

Record priv := mk_priv {
  (* User specified options *)
  opt_width : Z;
  opt_height : Z;
  opt_top : Z;
  opt_left : Z;
  opt_clear : Z;
  (* Internal data *)
  fmt : Z;
  mmap_fd : Z;
  buffer : Z;
  skip_frame_draw : bool;
  left : Z;
  top : Z;
  width : Z;
  height : Z;
  num_cols : Z;
  num_rows : Z;
  canvas_ok : bool;
  src_rect : mp_rect;
  dst_rect : mp_rect;
  osd : mp_osd_res;
  frame : option mp_image;
  sws : mp_sws_context
}.

(** Field updates, one per group of fields the source assigns together. *)

Definition set_canvas (rows cols : Z) (ok : bool) (p : priv) : priv :=
  {| opt_width := opt_width p; opt_height := opt_height p;
     opt_top := opt_top p; opt_left := opt_left p; opt_clear := opt_clear p;
     fmt := fmt p; mmap_fd := mmap_fd p; buffer := buffer p;
     skip_frame_draw := skip_frame_draw p;
     left := left p; top := top p; width := width p; height := height p;
     num_cols := cols; num_rows := rows; canvas_ok := ok;
     src_rect := src_rect p; dst_rect := dst_rect p; osd := osd p;
     frame := frame p; sws := sws p |}.

Definition set_rects (src dst : mp_rect) (o : mp_osd_res) (p : priv) : priv :=
  {| opt_width := opt_width p; opt_height := opt_height p;
     opt_top := opt_top p; opt_left := opt_left p; opt_clear := opt_clear p;
     fmt := fmt p; mmap_fd := mmap_fd p; buffer := buffer p;
     skip_frame_draw := skip_frame_draw p;
     left := left p; top := top p; width := width p; height := height p;
     num_cols := num_cols p; num_rows := num_rows p; canvas_ok := canvas_ok p;
     src_rect := src; dst_rect := dst; osd := o;
     frame := frame p; sws := sws p |}.

Definition set_size (w h : Z) (p : priv) : priv :=
  {| opt_width := opt_width p; opt_height := opt_height p;
     opt_top := opt_top p; opt_left := opt_left p; opt_clear := opt_clear p;
     fmt := fmt p; mmap_fd := mmap_fd p; buffer := buffer p;
     skip_frame_draw := skip_frame_draw p;
     left := left p; top := top p; width := w; height := h;
     num_cols := num_cols p; num_rows := num_rows p; canvas_ok := canvas_ok p;
     src_rect := src_rect p; dst_rect := dst_rect p; osd := osd p;
     frame := frame p; sws := sws p |}.

Definition set_origin (t l : Z) (p : priv) : priv :=
  {| opt_width := opt_width p; opt_height := opt_height p;
     opt_top := opt_top p; opt_left := opt_left p; opt_clear := opt_clear p;
     fmt := fmt p; mmap_fd := mmap_fd p; buffer := buffer p;
     skip_frame_draw := skip_frame_draw p;
     left := l; top := t; width := width p; height := height p;
     num_cols := num_cols p; num_rows := num_rows p; canvas_ok := canvas_ok p;
     src_rect := src_rect p; dst_rect := dst_rect p; osd := osd p;
     frame := frame p; sws := sws p |}.

Definition set_fmt (v : Z) (p : priv) : priv :=
  {| opt_width := opt_width p; opt_height := opt_height p;
     opt_top := opt_top p; opt_left := opt_left p; opt_clear := opt_clear p;
     fmt := v; mmap_fd := mmap_fd p; buffer := buffer p;
     skip_frame_draw := skip_frame_draw p;
     left := left p; top := top p; width := width p; height := height p;
     num_cols := num_cols p; num_rows := num_rows p; canvas_ok := canvas_ok p;
     src_rect := src_rect p; dst_rect := dst_rect p; osd := osd p;
     frame := frame p; sws := sws p |}.

Definition set_mmap_fd (v : Z) (p : priv) : priv :=
  {| opt_width := opt_width p; opt_height := opt_height p;
     opt_top := opt_top p; opt_left := opt_left p; opt_clear := opt_clear p;
     fmt := fmt p; mmap_fd := v; buffer := buffer p;
     skip_frame_draw := skip_frame_draw p;
     left := left p; top := top p; width := width p; height := height p;
     num_cols := num_cols p; num_rows := num_rows p; canvas_ok := canvas_ok p;
     src_rect := src_rect p; dst_rect := dst_rect p; osd := osd p;
     frame := frame p; sws := sws p |}.

Definition set_buffer (v : Z) (p : priv) : priv :=
  {| opt_width := opt_width p; opt_height := opt_height p;
     opt_top := opt_top p; opt_left := opt_left p; opt_clear := opt_clear p;
     fmt := fmt p; mmap_fd := mmap_fd p; buffer := v;
     skip_frame_draw := skip_frame_draw p;
     left := left p; top := top p; width := width p; height := height p;
     num_cols := num_cols p; num_rows := num_rows p; canvas_ok := canvas_ok p;
     src_rect := src_rect p; dst_rect := dst_rect p; osd := osd p;
     frame := frame p; sws := sws p |}.

Definition set_skip_frame_draw (v : bool) (p : priv) : priv :=
  {| opt_width := opt_width p; opt_height := opt_height p;
     opt_top := opt_top p; opt_left := opt_left p; opt_clear := opt_clear p;
     fmt := fmt p; mmap_fd := mmap_fd p; buffer := buffer p;
     skip_frame_draw := v;
     left := left p; top := top p; width := width p; height := height p;
     num_cols := num_cols p; num_rows := num_rows p; canvas_ok := canvas_ok p;
     src_rect := src_rect p; dst_rect := dst_rect p; osd := osd p;
     frame := frame p; sws := sws p |}.

Definition set_frame (v : option mp_image) (p : priv) : priv :=
  {| opt_width := opt_width p; opt_height := opt_height p;
     opt_top := opt_top p; opt_left := opt_left p; opt_clear := opt_clear p;
     fmt := fmt p; mmap_fd := mmap_fd p; buffer := buffer p;
     skip_frame_draw := skip_frame_draw p;
     left := left p; top := top p; width := width p; height := height p;
     num_cols := num_cols p; num_rows := num_rows p; canvas_ok := canvas_ok p;
     src_rect := src_rect p; dst_rect := dst_rect p; osd := osd p;
     frame := v; sws := sws p |}.

Definition set_sws (v : mp_sws_context) (p : priv) : priv :=
  {| opt_width := opt_width p; opt_height := opt_height p;
     opt_top := opt_top p; opt_left := opt_left p; opt_clear := opt_clear p;
     fmt := fmt p; mmap_fd := mmap_fd p; buffer := buffer p;
     skip_frame_draw := skip_frame_draw p;
     left := left p; top := top p; width := width p; height := height p;
     num_cols := num_cols p; num_rows := num_rows p; canvas_ok := canvas_ok p;
     src_rect := src_rect p; dst_rect := dst_rect p; osd := osd p;
     frame := frame p; sws := v |}.

(** ** The process and what it holds *)

(** Calls that leave the file, in the order they are made. *)
Inductive event : Type :=
| Printf (s : string)
| Fflush
| MP_WARN (msg : string)
| Shm_open (name : string) (ret : Z)
| Ftruncate (fd size ret : Z)
| Mmap (len fd ret : Z)
| Munmap (addr len : Z)
| Close (fd : Z)
| Shm_unlink (name : string)
| Image_alloc (w h : Z)
| Talloc_free
| Image_new_ref
| Image_unref
| Sws_reinit (ctx : mp_sws_context) (ret : Z)
| Sws_scale (src_rc : mp_rect)
| Image_clear (cx0 cy0 cx1 cy1 : Z)
| Osd_draw (dim : mp_osd_res) (t : Z)
| Memcpy_pic (bytesPerLine h dstStride srcStride : Z).

(** [fds]: descriptors open in this process.  [maps]: base address and
    length of each live mapping.  [shm]: the bytes of the object named
    [SHM_NAME], [None] while no object has that name.  [refs]: references
    to host pictures the driver took and has not yet freed. *)
Record world := mk_world {
  fds : list Z;
  maps : list (Z * Z);
  shm : option (list byte);
  refs : nat;
  trace : list event
}.

Definition emit (ev : event) (w : world) : world :=
  {| fds := fds w; maps := maps w; shm := shm w; refs := refs w;
     trace := trace w ++ [ev] |}.

Definition set_fds (l : list Z) (w : world) : world :=
  {| fds := l; maps := maps w; shm := shm w; refs := refs w;
     trace := trace w |}.

Definition set_maps (l : list (Z * Z)) (w : world) : world :=
  {| fds := fds w; maps := l; shm := shm w; refs := refs w;
     trace := trace w |}.

Definition set_shm (o : option (list byte)) (w : world) : world :=
  {| fds := fds w; maps := maps w; shm := o; refs := refs w;
     trace := trace w |}.

Definition set_refs (n : nat) (w : world) : world :=
  {| fds := fds w; maps := maps w; shm := shm w; refs := n;
     trace := trace w |}.

(** [ftruncate] keeps the bytes below the new length and zero-fills above. *)
Definition resize (n : nat) (l : list byte) : list byte :=
  firstn n l ++ List.repeat x00 (n - List.length l).

Definition sys_shm_open (ret : Z) (w : world) : world :=
  let w := emit (Shm_open SHM_NAME ret) w in
  if ret =? -1 then w
  else set_fds (ret :: fds w)
         (set_shm (Some (match shm w with Some b => b | None => [] end)) w).

Definition sys_ftruncate (fd size ret : Z) (w : world) : world :=
  let w := emit (Ftruncate fd size ret) w in
  if ret =? -1 then w
  else set_shm (option_map (resize (Z.to_nat size)) (shm w)) w.

Definition sys_mmap (len fd ret : Z) (w : world) : world :=
  let w := emit (Mmap len fd ret) w in
  if ret =? MAP_FAILED then w else set_maps ((ret, len) :: maps w) w.

(** [munmap] of a mapping by its base address: the call is recorded with
    the length it was given, and the mappings based at [addr] leave the
    table.  This is what the kernel does when [len] is the length the
    mapping was created with; for another length (none at all, or less
    than the mapping) the kernel refuses the call or unmaps a part only,
    which the table does not follow. *)
Definition sys_munmap (addr len : Z) (w : world) : world :=
  set_maps (filter (fun m => negb (fst m =? addr)) (maps w))
    (emit (Munmap addr len) w).

Definition sys_close (fd : Z) (w : world) : world :=
  set_fds (filter (fun d => negb (d =? fd)) (fds w)) (emit (Close fd) w).

Definition sys_shm_unlink (w : world) : world :=
  set_shm None (emit (Shm_unlink SHM_NAME) w).

(** ** struct vo

    The fields of the host's [struct vo] the driver uses, and with them the
    process state the callbacks act on. *)

Record vo := mk_vo {
  dwidth : Z;
  dheight : Z;
  want_redraw : bool;
  config_ok : bool;
  params : mp_image_params;
  vo_priv : priv;
  os : world
}.

Definition with_priv (f : priv -> priv) (v : vo) : vo :=
  {| dwidth := dwidth v; dheight := dheight v; want_redraw := want_redraw v;
     config_ok := config_ok v; params := params v;
     vo_priv := f (vo_priv v); os := os v |}.

Definition with_os (f : world -> world) (v : vo) : vo :=
  {| dwidth := dwidth v; dheight := dheight v; want_redraw := want_redraw v;
     config_ok := config_ok v; params := params v;
     vo_priv := vo_priv v; os := f (os v) |}.

Definition set_dsize (w h : Z) (v : vo) : vo :=
  {| dwidth := w; dheight := h; want_redraw := want_redraw v;
     config_ok := config_ok v; params := params v;
     vo_priv := vo_priv v; os := os v |}.

Definition set_want_redraw (b : bool) (v : vo) : vo :=
  {| dwidth := dwidth v; dheight := dheight v; want_redraw := b;
     config_ok := config_ok v; params := params v;
     vo_priv := vo_priv v; os := os v |}.

(** The host sets [config_ok] from the result of its call to [reconfig]. *)
Definition set_config_ok (b : bool) (v : vo) : vo :=
  {| dwidth := dwidth v; dheight := dheight v; want_redraw := want_redraw v;
     config_ok := b; params := params v;
     vo_priv := vo_priv v; os := os v |}.

(** ** What the collaborators answer during one callback *)

Record env := mk_env {
  (* terminal_get_size2: rows, columns, pixel width, pixel height it stores,
     or None when it leaves its out-parameters as they are *)
  e_term : option (Z * Z * Z * Z);
  (* vo_get_src_dst_rects *)
  e_rects : mp_rect * mp_rect * mp_osd_res;
  (* mp_image_alloc: stride and bytes of plane 0, or None for NULL *)
  e_alloc : option (Z * list byte);
  (* return values *)
  e_sws_reinit : Z;
  e_shm_open : Z;
  e_ftruncate : Z;
  e_mmap : Z
}.

(** ** The driver *)

Definition dealloc_buffers (v : vo) : vo :=
  let v :=
    if negb (buffer (vo_priv v) =? NULL) then
      let len := CInt.umul (CInt.mul (width (vo_priv v)) (height (vo_priv v))) depth in
      with_priv (set_buffer NULL)
        (with_os (sys_munmap (buffer (vo_priv v)) len) v)
    else v in
  let v :=
    if negb (mmap_fd (vo_priv v) =? -1) then
      with_priv (set_mmap_fd (-1))
        (with_os (sys_close (mmap_fd (vo_priv v))) v)
    else v in
  match frame (vo_priv v) with
  | Some _ => with_priv (set_frame None) (with_os (emit Talloc_free) v)
  | None => v
  end.

(** [terminal_get_size2] writes through four pointers, which the caller
    initialised to 0. *)
Definition terminal_get_size2 (e : env) (init : Z * Z * Z * Z) : Z * Z * Z * Z :=
  match e_term e with
  | Some r => r
  | None => init
  end.

Definition update_canvas_dimensions (e : env) (v : vo) : vo :=
  let '(num_rows, num_cols, total_px_width, total_px_height) :=
    terminal_get_size2 e (0, 0, 0, 0) in
  let total_px_width :=
    if opt_width (vo_priv v) >? 0 then opt_width (vo_priv v)
    else if total_px_width <=? 0 then TERMINAL_FALLBACK_PX_WIDTH
    else total_px_width in
  let total_px_height :=
    if opt_height (vo_priv v) >? 0 then opt_height (vo_priv v)
    else if total_px_height <=? 0 then TERMINAL_FALLBACK_PX_HEIGHT
    else total_px_height in
  let v := set_dsize total_px_width total_px_height v in
  with_priv (set_canvas num_rows num_cols
               ((dwidth v >? 0) && (dheight v >? 0))) v.

(** Modelled from the spec: [mp_rect_w] and [mp_rect_h] are macros of the
    host that the file only uses; the design hands the scaler the "cropped
    width/height" of the source rectangle, the difference of its corners. *)
Definition mp_rect_w (r : mp_rect) : Z := CInt.sub (x1 r) (x0 r).
Definition mp_rect_h (r : mp_rect) : Z := CInt.sub (y1 r) (y0 r).

Definition set_output_parameters (e : env) (v : vo) : vo :=
  let '(src, dst, o) := e_rects e in
  let v := with_priv (set_rects src dst o) v in
  let p := vo_priv v in
  let v := with_priv (set_size (CInt.sub (x1 (dst_rect p)) (x0 (dst_rect p)))
                               (CInt.sub (y1 (dst_rect p)) (y0 (dst_rect p)))) v in
  let t :=
    if opt_top p >? 0 then opt_top p
    else CInt.add (CInt.div (CInt.mul (num_rows p) (y0 (dst_rect p))) (dheight v)) 1 in
  let l :=
    if opt_left p >? 0 then opt_left p
    else CInt.add (CInt.div (CInt.mul (num_cols p) (x0 (dst_rect p))) (dwidth v)) 1 in
  with_priv (set_origin t l) v.

(** Modelled from the spec: [mp_image_alloc] is the host's allocator, which
    "allocates a fresh RGBA raster of dest_width x dest_height" or fails; the
    stride and the bytes it hands out are the answer of this callback's
    [env]. *)
Definition mp_image_alloc (e : env) (w h : Z) : option mp_image :=
  match e_alloc e with
  | Some (stride, bytes) =>
      Some {| im_w := w; im_h := h; stride0 := stride; planes0 := bytes |}
  | None => None
  end.

Definition update_params (e : env) (par : mp_image_params) (v : vo) : Z * vo :=
  let p := vo_priv v in
  let ctx :=
    {| sws_src := {| imgfmt := imgfmt par;
                     par_w := mp_rect_w (src_rect p);
                     par_h := mp_rect_h (src_rect p);
                     p_w := p_w par; p_h := p_h par |};
       sws_dst := {| imgfmt := fmt p; par_w := width p; par_h := height p;
                     p_w := 1; p_h := 1 |} |} in
  let v := with_priv (set_sws ctx) v in
  let v := dealloc_buffers v in
  let p := vo_priv v in
  let v := with_os (emit (Image_alloc (width p) (height p))) v in
  let v := with_priv (set_frame (mp_image_alloc e (width p) (height p))) v in
  match frame (vo_priv v) with
  | None => (-1, v)
  | Some _ =>
      let v := with_os (emit (Sws_reinit (sws (vo_priv v)) (e_sws_reinit e))) v in
      if e_sws_reinit e <? 0 then (-1, v) else (0, v)
  end.

Definition reconfig (e : env) (par : mp_image_params) (v : vo) : Z * vo :=
  let v := update_canvas_dimensions e v in
  let '(ret, v) :=
    if canvas_ok (vo_priv v) then
      update_params e par (set_output_parameters e v)
    else (0, v) in
  let v := with_os (emit (Printf ESC_CLEAR_SCREEN)) v in
  (ret, set_want_redraw true v).

(** Modelled from the spec: [MP_ALIGN_DOWN] is a macro of the host that the
    file only uses; the design says it "aligns the crop origin down to the
    source format's required alignment boundaries", which for the
    power-of-two alignments of pixel formats is clearing the low bits. *)
Definition MP_ALIGN_DOWN (x align : Z) : Z := Z.land x (Z.lnot (align - 1)).

(** [memcpy] of [n] bytes from offset [soff] of [src] to offset [doff] of
    [dst]; [None] when a range leaves its buffer. *)
Definition memcpy (dst : list byte) (doff : Z) (src : list byte) (soff n : Z)
  : option (list byte) :=
  if (0 <=? doff) && (0 <=? soff) && (0 <=? n)
     && (doff + n <=? Z.of_nat (List.length dst))
     && (soff + n <=? Z.of_nat (List.length src))
  then Some (firstn (Z.to_nat doff) dst
             ++ firstn (Z.to_nat n) (skipn (Z.to_nat soff) src)
             ++ skipn (Z.to_nat (doff + n)) dst)
  else None.

(** Modelled from the spec: [memcpy_pic] is a helper of the host that the file
    only calls; the design says it must "copy the raster's pixel rows into the
    mapped region honoring the raster's row stride (destination stride is
    exactly width*4; source stride may be larger due to padding)": one
    [memcpy] of [bytesPerLine] bytes per row, both cursors advancing by their
    own stride. *)
Fixpoint memcpy_pic_rows (rows : nat) (dst src : list byte) (doff soff : Z)
  (bytesPerLine dstStride srcStride : Z) : option (list byte) :=
  match rows with
  | O => Some dst
  | S k =>
      match memcpy dst doff src soff bytesPerLine with
      | Some dst' =>
          memcpy_pic_rows k dst' src (doff + dstStride) (soff + srcStride)
            bytesPerLine dstStride srcStride
      | None => None
      end
  end.

(** [memcpy_pic] as the driver calls it: [h] rows from the start of both
    buffers. *)
Definition memcpy_pic (dst src : list byte)
  (bytesPerLine h dstStride srcStride : Z) : option (list byte) :=
  memcpy_pic_rows (Z.to_nat h) dst src 0 0 bytesPerLine dstStride srcStride.

Definition set_planes0 (bytes : list byte) (img : mp_image) : mp_image :=
  {| im_w := im_w img; im_h := im_h img; stride0 := stride0 img;
     planes0 := bytes |}.

Section Collaborators.

(** The scaler, the raster clearing routine and the overlay renderer each
    write into the raster they are given; here they return its new bytes.
    The scaler receives the picture and the rectangle it was cropped to. *)
Variable mp_sws_scale :
  mp_sws_context -> mp_image -> src_image -> mp_rect -> list byte.
Variable mp_image_clear : mp_image -> Z -> Z -> Z -> Z -> list byte.
Variable osd_draw_on_image : mp_osd_res -> Z -> mp_image -> list byte.

(** [draw_frame], lines 214-233: scale or clear, then the overlay.
    [None]: the raster pointer was NULL when it was dereferenced. *)
Definition draw_frame_composite (f : vo_frame) (v : vo) : option vo :=
  let p := vo_priv v in
  match frame p with
  | None => None
  | Some img =>
      let '(img, t, v) :=
        match current f with
        | Some mpi =>
            let v := with_os (fun w => set_refs (S (refs w)) (emit Image_new_ref w)) v in
            let src_rc :=
              {| x0 := MP_ALIGN_DOWN (x0 (src_rect p)) (align_x mpi);
                 y0 := MP_ALIGN_DOWN (y0 (src_rect p)) (align_y mpi);
                 x1 := x1 (src_rect p);
                 y1 := y1 (src_rect p) |} in
            (set_planes0 (mp_sws_scale (sws p) img mpi src_rc) img,
             pts mpi,
             with_os (emit (Sws_scale src_rc)) v)
        | None =>
            (set_planes0 (mp_image_clear img 0 0 (width p) (height p)) img,
             0,
             with_os (emit (Image_clear 0 0 (width p) (height p))) v)
        end in
      let dim := {| res_w := width p; res_h := height p |} in
      let img := set_planes0 (osd_draw_on_image dim t img) img in
      Some (with_priv (set_frame (Some img))
              (with_os (emit (Osd_draw dim t)) v))
  end.

(** [draw_frame], lines 236-264: the shared-memory object is created,
    sized, mapped and filled.  [None]: a copy left its buffer. *)
Definition draw_frame_publish (e : env) (f : vo_frame) (v : vo) : option vo :=
  let v := with_priv (set_mmap_fd (e_shm_open e))
             (with_os (sys_shm_open (e_shm_open e)) v) in
  let p := vo_priv v in
  if mmap_fd p =? -1 then
    Some (with_os (emit (MP_WARN "Failed to create SHM object")) v)
  else
    let size := CInt.wrap (CInt.umul (CInt.mul (width p) (height p)) depth) in
    let v := with_os (sys_ftruncate (mmap_fd p) size (e_ftruncate e)) v in
    if e_ftruncate e =? -1 then
      Some (with_os (fun w =>
              sys_close (mmap_fd p)
                (sys_shm_unlink
                   (emit (MP_WARN "Failed to truncate SHM object") w))) v)
    else
      let v := with_priv (set_buffer (e_mmap e))
                 (with_os (sys_mmap size (mmap_fd p) (e_mmap e)) v) in
      if buffer (vo_priv v) =? MAP_FAILED then
        Some (with_os (fun w =>
                sys_close (mmap_fd p)
                  (sys_shm_unlink
                     (emit (MP_WARN "Failed to mmap SHM object") w))) v)
      else
        let line := CInt.wrap (CInt.umul (width p) depth) in
        match frame p, shm (os v) with
        | Some img, Some region =>
            match memcpy_pic region (planes0 img) line (height p) line
                    (stride0 img) with
            | Some region' =>
                let v := with_os (fun w =>
                           set_shm (Some region')
                             (emit (Memcpy_pic line (height p) line
                                      (stride0 img)) w)) v in
                Some (match current f with
                      | Some _ =>
                          with_os (fun w =>
                            set_refs (pred (refs w)) (emit Image_unref w)) v
                      | None => v
                      end)
            | None => None
            end
        | _, _ => None
        end.

Definition draw_frame (e : env) (f : vo_frame) (v : vo) : option vo :=
  let prev_height := dheight v in
  let prev_width := dwidth v in
  let v := update_canvas_dimensions e v in
  if negb (canvas_ok (vo_priv v)) then Some v
  else
    let resized :=
      negb (prev_width =? dwidth v) || negb (prev_height =? dheight v) in
    let v :=
      if resized then
        with_os (emit (Printf ESC_CLEAR_SCREEN))
          (snd (update_params e (params v) (set_output_parameters e v)))
      else v in
    if repeat f && negb (redraw f) && negb resized then
      Some (with_priv (set_skip_frame_draw true) v)
    else
      let v := with_priv (set_skip_frame_draw false) v in
      match draw_frame_composite f v with
      | Some v => draw_frame_publish e f v
      | None => None
      end.

End Collaborators.

Definition flip_page (v : vo) : vo :=
  let p := vo_priv v in
  if negb (canvas_ok p) then v
  else if skip_frame_draw p then v
  else
    let v := with_os (emit (Printf (ESC_GOTOXY (top p) (left p)))) v in
    let v := with_os (emit (Printf (kitty_transfer (width p) (height p)
                                      SHM_NAME_BASE64))) v in
    let v := with_os (emit Fflush) v in
    (* SHM_NAME will be unlinked by kitty, so not unlinking in mpv *)
    let len := CInt.umul (CInt.mul (width p) (height p)) depth in
    let v := with_os (sys_munmap (buffer p) len) v in
    let v := with_priv (set_buffer NULL) v in
    let v := with_os (sys_close (mmap_fd p)) v in
    with_priv (set_mmap_fd (-1)) v.

(** The host's [mp_sws_alloc]: a context with nothing configured. *)
Definition mp_sws_alloc : mp_sws_context :=
  let z := {| imgfmt := 0; par_w := 0; par_h := 0; p_w := 0; p_h := 0 |} in
  {| sws_src := z; sws_dst := z |}.

Definition preinit (v : vo) : Z * vo :=
  let v := with_os (emit (Printf ESC_HIDE_CURSOR)) v in
  let v := with_priv (set_mmap_fd (-1)) v in
  let v := with_priv (set_sws mp_sws_alloc) v in
  (0, v).

(** [supported] is the scaler's answer to [mp_sws_supports_formats]. *)
Definition query_format (supported : bool) (format : Z) (v : vo) : Z * vo :=
  if supported then (1, with_priv (set_fmt format) v) else (0, v).

(** Requests and answers of the host's control interface, as far as the
    driver tells them apart. *)
Inductive voctrl : Type :=
| VOCTRL_SET_PANSCAN
| VOCTRL_other (code : Z).

Inductive vo_answer : Type :=
| VO_TRUE
| VO_FALSE
| VO_NOTIMPL.

Definition control (e : env) (request : voctrl) (v : vo) : vo_answer * vo :=
  match request with
  | VOCTRL_SET_PANSCAN =>
      if config_ok v then
        let '(ret, v) := reconfig e (params v) v in
        if ret =? 0 then (VO_TRUE, v) else (VO_FALSE, v)
      else (VO_FALSE, v)
  | VOCTRL_other _ => (VO_NOTIMPL, v)
  end.

Definition uninit (v : vo) : vo :=
  let p := vo_priv v in
  let v := with_os (emit (Printf ESC_RESTORE_CURSOR)) v in
  let v :=
    if negb (opt_clear p =? 0) then
      with_os (emit (Printf (ESC_GOTOXY 1 1)))
        (with_os (emit (Printf ESC_CLEAR_SCREEN)) v)
    else v in
  let v := with_os (emit Fflush) v in
  dealloc_buffers v.

(** [priv_defaults] over the zeroed allocation the host makes. *)
Definition priv_defaults : priv :=
  {| opt_width := 0; opt_height := 0; opt_top := 0; opt_left := 0;
     opt_clear := 1;
     fmt := 0; mmap_fd := 0; buffer := NULL; skip_frame_draw := false;
     left := 0; top := 0; width := 0; height := 0;
     num_cols := 0; num_rows := 0; canvas_ok := false;
     src_rect := mk_rect 0 0 0 0; dst_rect := mk_rect 0 0 0 0;
     osd := mk_osd_res 0 0; frame := None; sws := mp_sws_alloc |}.

(** ** The host's call sequences *)

Section Reachability.

Variable mp_sws_scale :
  mp_sws_context -> mp_image -> src_image -> mp_rect -> list byte.
Variable mp_image_clear : mp_image -> Z -> Z -> Z -> Z -> list byte.
Variable osd_draw_on_image : mp_osd_res -> Z -> mp_image -> list byte.

(** States the driver is in once the geometry has been resolved at least
    once: after a [reconfig] or a [draw_frame], and after any callback that
    follows one. *)
Inductive resolved : vo -> Prop :=
| resolved_reconfig e par v :
    resolved (snd (reconfig e par v))
| resolved_draw e f v v' :
    draw_frame mp_sws_scale mp_image_clear osd_draw_on_image e f v = Some v' ->
    resolved v'
| resolved_flip v :
    resolved v -> resolved (flip_page v)
| resolved_control e request v :
    resolved v -> resolved (snd (control e request v))
| resolved_query supported format v :
    resolved v -> resolved (snd (query_format supported format v)).

End Reachability.

(** ** A concrete run

    A terminal of 24 rows and 80 columns reporting 960x600 pixels, no user
    override, and an 8x4 source shown unscaled in the middle of the canvas. *)

Definition world0 : world :=
  {| fds := []; maps := []; shm := None; refs := 0%nat; trace := [] |}.

Definition params0 : mp_image_params :=
  {| imgfmt := 7; par_w := 8; par_h := 4; p_w := 1; p_h := 1 |}.

Definition vo0 : vo :=
  {| dwidth := 0; dheight := 0; want_redraw := false; config_ok := true;
     params := params0; vo_priv := priv_defaults; os := world0 |}.

(** The raster the allocator hands out: 8x4 pixels, rows padded to 64 bytes. *)
Definition raster_bytes0 : list byte := List.repeat x00 256.

Definition env0 : env :=
  {| e_term := Some (24, 80, 960, 600);
     e_rects := (mk_rect 0 0 8 4, mk_rect 476 298 484 302,
                 mk_osd_res 960 600);
     e_alloc := Some (64, raster_bytes0);
     e_sws_reinit := 0;
     e_shm_open := 3;
     e_ftruncate := 0;
     e_mmap := 4096 |}.

(** The same terminal after its window shrank to 800x500 pixels. *)
Definition env_resized : env :=
  {| e_term := Some (24, 80, 800, 500);
     e_rects := (mk_rect 0 0 8 4, mk_rect 396 248 404 252,
                 mk_osd_res 800 500);
     e_alloc := Some (64, raster_bytes0);
     e_sws_reinit := 0;
     e_shm_open := 3;
     e_ftruncate := 0;
     e_mmap := 4096 |}.

Definition env_shm_open_fails : env :=
  {| e_term := e_term env0; e_rects := e_rects env0; e_alloc := e_alloc env0;
     e_sws_reinit := 0; e_shm_open := -1; e_ftruncate := 0; e_mmap := 4096 |}.

Definition env_ftruncate_fails : env :=
  {| e_term := e_term env0; e_rects := e_rects env0; e_alloc := e_alloc env0;
     e_sws_reinit := 0; e_shm_open := 3; e_ftruncate := -1; e_mmap := 4096 |}.

Definition env_mmap_fails : env :=
  {| e_term := e_term env0; e_rects := e_rects env0; e_alloc := e_alloc env0;
     e_sws_reinit := 0; e_shm_open := 3; e_ftruncate := 0;
     e_mmap := MAP_FAILED |}.

(** A scaler that paints byte [k mod 256] at offset [k], a clear that zeroes,
    an overlay renderer with nothing to draw. *)
Definition scale0 (_ : mp_sws_context) (img : mp_image) (_ : src_image)
  (_ : mp_rect) : list byte :=
  map (fun k => match Byte.of_nat (k mod 256) with
                | Some b => b
                | None => x00
                end)
      (seq 0 (List.length (planes0 img))).

Definition clear0 (img : mp_image) (_ _ _ _ : Z) : list byte :=
  List.repeat x00 (List.length (planes0 img)).

Definition osd0 (_ : mp_osd_res) (_ : Z) (img : mp_image) : list byte :=
  planes0 img.

Definition picture0 : src_image :=
  {| pts := 0; align_x := 2; align_y := 2; pixels := [] |}.

Definition new_frame : vo_frame :=
  {| current := Some picture0; repeat := false; redraw := false |}.

Definition repeated_frame : vo_frame :=
  {| current := Some picture0; repeat := true; redraw := false |}.

(** The driver after [preinit] and [query_format], and after [reconfig]. *)
Definition vo_init : vo := snd (query_format true 7 (snd (preinit vo0))).

Definition vo_ready : vo := snd (reconfig env0 params0 vo_init).

(** The state a draw leaves, or the state before it had it crashed. *)
Definition after_draw (r : option vo) (before : vo) : vo :=
  match r with
  | Some v => v
  | None => before
  end.

(** The ready driver after drawing a new frame, and after drawing a repeat. *)
Definition vo_drawn : vo :=
  after_draw (draw_frame scale0 clear0 osd0 env0 new_frame vo_ready) vo_ready.

Definition vo_repeated : vo :=
  after_draw (draw_frame scale0 clear0 osd0 env0 repeated_frame vo_ready)
    vo_ready.

Definition vo_presented : vo := flip_page vo_drawn.

(** The ready driver in the middle of drawing a new frame: composited, not
    yet published. *)
Definition vo_composited : vo :=
  after_draw
    (draw_frame_composite scale0 clear0 osd0 new_frame
       (with_priv (set_skip_frame_draw false)
          (update_canvas_dimensions env0 vo_ready)))
    vo_ready.

Definition raster_composited : mp_image :=
  match frame (vo_priv vo_composited) with
  | Some img => img
  | None => mk_image 0 0 0 []
  end.

(** The window shrinks after the first frame was presented, and the host
    draws the same frame again. *)
Definition vo_resized : vo :=
  after_draw (draw_frame scale0 clear0 osd0 env_resized repeated_frame
                vo_presented)
    vo_presented.

(** The window shrinks after the first frame was presented, the host asks
    for a new pan-and-scan, and only then draws the same frame again. *)
Definition vo_panscan : vo :=
  snd (control env_resized VOCTRL_SET_PANSCAN vo_presented).

Definition vo_panscan_repeated : vo :=
  after_draw (draw_frame scale0 clear0 osd0 env_resized repeated_frame
                vo_panscan)
    vo_panscan.

(** The ready driver after a draw during which [shm_open], [ftruncate] or
    [mmap] failed. *)
Definition vo_open_failed : vo :=
  after_draw (draw_frame scale0 clear0 osd0 env_shm_open_fails new_frame
                vo_ready)
    vo_ready.

Definition vo_truncate_failed : vo :=
  after_draw (draw_frame scale0 clear0 osd0 env_ftruncate_fails new_frame
                vo_ready)
    vo_ready.

Definition vo_mmap_failed : vo :=
  after_draw (draw_frame scale0 clear0 osd0 env_mmap_fails new_frame
                vo_ready)
    vo_ready.

(** ** Vocabulary of the statements *)

(** The canvas as the driver has it: pixel width, pixel height, validity. *)
Definition canvas (v : vo) : Z * Z * bool :=
  (dwidth v, dheight v, canvas_ok (vo_priv v)).

(** The canvas is usable: both pixel dimensions positive and recorded so. *)
Definition geometry_ok (v : vo) : Prop :=
  0 < dwidth v /\ 0 < dheight v /\ canvas_ok (vo_priv v) = true.

(** A destination rectangle whose corners are ordered and whose pixels, four
    bytes each, can be counted in an [int]. *)
Definition valid_layout (dst : mp_rect) : bool :=
  (0 <=? x0 dst) && (x0 dst <=? x1 dst) && (x1 dst <=? CInt.int_max)
  && (0 <=? y0 dst) && (y0 dst <=? y1 dst) && (y1 dst <=? CInt.int_max)
  && ((x1 dst - x0 dst) * (y1 dst - y0 dst) * 4 <=? CInt.int_max).

(** The first [line] bytes of each of [h] rows of a plane, the first row
    starting at byte [from] and the rows being [stride] bytes apart, one after
    the other. *)
Definition raster_rows_from (bytes : list byte) (from stride line : Z)
  (h : nat) : list byte :=
  List.concat
    (map (fun r => firstn (Z.to_nat line)
                     (skipn (Z.to_nat (from + Z.of_nat r * stride)) bytes))
         (seq 0 h)).

Definition raster_rows (bytes : list byte) (stride line : Z) (h : nat)
  : list byte :=
  raster_rows_from bytes 0 stride line h.

(** The calls a callback added to the trace. *)
Definition new_events (before after : vo) : list event :=
  skipn (List.length (trace (os before))) (trace (os after)).

(** The rectangle a picture is cropped to before it is scaled: the source
    rectangle with its origin aligned down for the picture's format. *)
Definition crop_rect (p : priv) (mpi : src_image) : mp_rect :=
  {| x0 := MP_ALIGN_DOWN (x0 (src_rect p)) (align_x mpi);
     y0 := MP_ALIGN_DOWN (y0 (src_rect p)) (align_y mpi);
     x1 := x1 (src_rect p);
     y1 := y1 (src_rect p) |}.

(** A frame composited into a raster: the picture scaled into it, or the
    raster cleared when the frame carries no picture, and the overlay drawn
    over the result at the image size and the picture's time. *)
Definition composited
  (mp_sws_scale : mp_sws_context -> mp_image -> src_image -> mp_rect -> list byte)
  (mp_image_clear : mp_image -> Z -> Z -> Z -> Z -> list byte)
  (osd_draw_on_image : mp_osd_res -> Z -> mp_image -> list byte)
  (f : vo_frame) (p : priv) (img : mp_image) : mp_image :=
  let dim := {| res_w := width p; res_h := height p |} in
  match current f with
  | Some mpi =>
      let scaled :=
        set_planes0 (mp_sws_scale (sws p) img mpi (crop_rect p mpi)) img in
      set_planes0 (osd_draw_on_image dim (pts mpi) scaled) scaled
  | None =>
      let cleared :=
        set_planes0 (mp_image_clear img 0 0 (width p) (height p)) img in
      set_planes0 (osd_draw_on_image dim 0 cleared) cleared
  end.

(** The calls that compositing a frame consists of. *)
Definition composite_calls (f : vo_frame) (p : priv) : list event :=
  let dim := {| res_w := width p; res_h := height p |} in
  match current f with
  | Some mpi =>
      [Image_new_ref; Sws_scale (crop_rect p mpi); Osd_draw dim (pts mpi)]
  | None =>
      [Image_clear 0 0 (width p) (height p); Osd_draw dim 0]
  end.

(** The calls that transferring a raster of [w] x [h] pixels with rows
    [stride] bytes apart consists of, under the answers of [e]: the object is
    created, sized, mapped and filled, and the picture given back; the first
    call that fails is followed by the warning and by the removal of what
    had been created. *)
Definition transfer_calls (e : env) (f : vo_frame) (w h stride : Z)
  : list event :=
  let fd := e_shm_open e in
  let size := CInt.wrap (CInt.umul (CInt.mul w h) depth) in
  let line := CInt.wrap (CInt.umul w depth) in
  if fd =? -1 then
    [Shm_open SHM_NAME fd; MP_WARN "Failed to create SHM object"]
  else if e_ftruncate e =? -1 then
    [Shm_open SHM_NAME fd; Ftruncate fd size (e_ftruncate e);
     MP_WARN "Failed to truncate SHM object"; Shm_unlink SHM_NAME; Close fd]
  else if e_mmap e =? MAP_FAILED then
    [Shm_open SHM_NAME fd; Ftruncate fd size (e_ftruncate e);
     Mmap size fd (e_mmap e);
     MP_WARN "Failed to mmap SHM object"; Shm_unlink SHM_NAME; Close fd]
  else
    [Shm_open SHM_NAME fd; Ftruncate fd size (e_ftruncate e);
     Mmap size fd (e_mmap e); Memcpy_pic line h line stride]
    ++ match current f with
       | Some _ => [Image_unref]
       | None => []
       end.

(** A raster that holds [h] rows of [w] pixels of four bytes, the rows
    [stride0] bytes apart, with every byte count within an [int]. *)
Definition raster_fits (w h : Z) (img : mp_image) : Prop :=
  0 <= w /\ 0 <= h /\ w * h * 4 <= CInt.int_max /\
  w * 4 <= stride0 img /\ stride0 img <= CInt.int_max /\
  stride0 img * h <= Z.of_nat (List.length (planes0 img)).

(** Base64 (RFC 4648) of a sequence of octets. *)
Definition b64_alphabet : string :=
  "ABCDEFGHIJKLMNOPQRSTUVWXYZabcdefghijklmnopqrstuvwxyz0123456789+/".

Definition b64_digit (n : Z) : string :=
  match String.get (Z.to_nat (n mod 64)) b64_alphabet with
  | Some c => String c EmptyString
  | None => EmptyString
  end.

Fixpoint base64_octets (l : list Z) : string :=
  match l with
  | [] => EmptyString
  | [a] =>
      b64_digit (a / 4) ++ b64_digit (a * 16) ++ "=="
  | [a; b] =>
      b64_digit (a / 4) ++ b64_digit (a * 16 + b / 16)
        ++ b64_digit (b * 4) ++ "="
  | a :: b :: c :: rest =>
      b64_digit (a / 4) ++ b64_digit (a * 16 + b / 16)
        ++ b64_digit (b * 4 + c / 64) ++ b64_digit c
        ++ base64_octets rest
  end.

Definition base64_encode (s : string) : string :=
  base64_octets (map (fun c => Z.of_nat (nat_of_ascii c))
                     (list_ascii_of_string s)).

(** The name of a shared-memory object inside the namespace: the portable
    form handed to [shm_open] without the slash that marks it. *)
Definition shm_basename (name : string) : string :=
  match name with
  | String "/" rest => rest
  | _ => name
  end.

(** ** The host's calls, as data *)

(** The host stores the parameters it configured the driver with. *)
Definition set_params (par : mp_image_params) (v : vo) : vo :=
  {| dwidth := dwidth v; dheight := dheight v; want_redraw := want_redraw v;
     config_ok := config_ok v; params := par;
     vo_priv := vo_priv v; os := os v |}.

(** One entry of the driver table called by the host, with what the
    collaborators answer during the call; [Host_config] is the host writing
    its own two fields between calls. *)
Inductive callback : Type :=
| Call_preinit
| Call_query_format (supported : bool) (format : Z)
| Call_reconfig (e : env) (par : mp_image_params)
| Call_control (e : env) (request : voctrl)
| Call_draw_frame (e : env) (f : vo_frame)
| Call_flip_page
| Call_uninit
| Host_config (ok : bool) (par : mp_image_params).

Section Host.

Variable mp_sws_scale :
  mp_sws_context -> mp_image -> src_image -> mp_rect -> list byte.
Variable mp_image_clear : mp_image -> Z -> Z -> Z -> Z -> list byte.
Variable osd_draw_on_image : mp_osd_res -> Z -> mp_image -> list byte.

Definition call (c : callback) (v : vo) : option vo :=
  match c with
  | Call_preinit => Some (snd (preinit v))
  | Call_query_format supported format =>
      Some (snd (query_format supported format v))
  | Call_reconfig e par => Some (snd (reconfig e par v))
  | Call_control e request => Some (snd (control e request v))
  | Call_draw_frame e f =>
      draw_frame mp_sws_scale mp_image_clear osd_draw_on_image e f v
  | Call_flip_page => Some (flip_page v)
  | Call_uninit => Some (uninit v)
  | Host_config ok par => Some (set_config_ok ok (set_params par v))
  end.

Fixpoint run (cs : list callback) (v : vo) : option vo :=
  match cs with
  | [] => Some v
  | c :: rest =>
      match call c v with
      | Some v' => run rest v'
      | None => None
      end
  end.

End Host.

(** The calls of a playback: each frame is drawn, then presented. *)
Definition playback (frames : list (env * vo_frame)) : list callback :=
  flat_map (fun ef => [Call_draw_frame (fst ef) (snd ef); Call_flip_page])
    frames.

(** No transfer is outstanding: the driver records no buffer and no
    descriptor, and the process holds none. *)
Definition clean (v : vo) : Prop :=
  buffer (vo_priv v) = NULL /\ mmap_fd (vo_priv v) = -1 /\
  fds (os v) = [] /\ maps (os v) = [].

(** The user's options. *)
Definition options (v : vo) : Z * Z * Z * Z * Z :=
  (opt_width (vo_priv v), opt_height (vo_priv v), opt_top (vo_priv v),
   opt_left (vo_priv v), opt_clear (vo_priv v)).

(** The recorded image size is that of the destination rectangle, and the
    raster, when there is one, has that size. *)
Definition layout_inv (v : vo) : Prop :=
  let p := vo_priv v in
  width p = CInt.sub (x1 (dst_rect p)) (x0 (dst_rect p)) /\
  height p = CInt.sub (y1 (dst_rect p)) (y0 (dst_rect p)) /\
  forall img, frame p = Some img -> im_w img = width p /\ im_h img = height p.

(** Calls that write to the terminal, and calls that give something back. *)
Definition is_stdout (ev : event) : bool :=
  match ev with
  | Printf _ | Fflush => true
  | _ => false
  end.

Definition is_release (ev : event) : bool :=
  match ev with
  | Munmap _ _ | Close _ | Talloc_free => true
  | _ => false
  end.

(** * Properties *)

(** ** Arithmetic of C integers *)

Lemma wrap_small (z : Z) : CInt.in_range z -> CInt.wrap z = z.
Proof.
  unfold CInt.in_range, CInt.int_min, CInt.int_max, CInt.wrap. intros H.
  rewrite Z.mod_small by lia. lia.
Qed.

Lemma uwrap_small (z : Z) : 0 <= z < 2 ^ 32 -> CInt.uwrap z = z.
Proof. unfold CInt.uwrap. intros H. now apply Z.mod_small. Qed.

Lemma uwrap_mul (a b : Z) :
  CInt.uwrap (CInt.uwrap a * CInt.uwrap b) = CInt.uwrap (a * b).
Proof. unfold CInt.uwrap. now rewrite <- Z.mul_mod by lia. Qed.

Lemma uwrap_wrap (z : Z) : CInt.uwrap (CInt.wrap z) = CInt.uwrap z.
Proof.
  unfold CInt.uwrap, CInt.wrap.
  rewrite Zminus_mod, Z.mod_mod by lia.
  rewrite <- Zminus_mod. f_equal. lia.
Qed.

(** The byte count [width * height * depth] as the driver computes it, when
    the product fits an [int]. *)
Lemma byte_count_exact (w h : Z) :
  0 <= w * h * 4 <= CInt.int_max ->
  CInt.umul (CInt.mul w h) depth = w * h * 4.
Proof.
  intros H. unfold CInt.umul, CInt.mul, depth.
  rewrite uwrap_mul, <- uwrap_mul, uwrap_wrap, uwrap_mul.
  apply uwrap_small. unfold CInt.int_max in H. lia.
Qed.

Lemma line_bytes_exact (w : Z) :
  0 <= w * 4 <= CInt.int_max ->
  CInt.wrap (CInt.umul w depth) = w * 4.
Proof.
  intros H. unfold CInt.umul, depth. rewrite uwrap_mul.
  unfold CInt.int_max in H.
  rewrite uwrap_small by lia. apply wrap_small.
  unfold CInt.in_range, CInt.int_min, CInt.int_max. lia.
Qed.

(** Truncating division is the floor on a non-negative dividend. *)
Lemma cell_of_pixel_exact (cells px total : Z) :
  0 <= cells * px < CInt.int_max -> 0 < total ->
  CInt.add (CInt.div (CInt.mul cells px) total) 1 = cells * px / total + 1.
Proof.
  intros H Ht. unfold CInt.add, CInt.div, CInt.mul.
  assert (R : CInt.in_range (cells * px))
    by (unfold CInt.in_range, CInt.int_min, CInt.int_max in *; lia).
  rewrite (wrap_small _ R).
  rewrite Z.quot_div_nonneg by lia.
  assert (Q : 0 <= cells * px / total <= cells * px).
  { split; [apply Z.div_pos; lia|].
    apply Z.div_le_upper_bound; [lia|]. nia. }
  rewrite (wrap_small (cells * px / total))
    by (unfold CInt.in_range, CInt.int_min, CInt.int_max in *; lia).
  apply wrap_small.
  unfold CInt.in_range, CInt.int_min, CInt.int_max in *. lia.
Qed.

(** ** Canvas geometry *)

(** What [update_canvas_dimensions] leaves alone. *)
Lemma update_canvas_dimensions_frame (e : env) (v : vo) :
  let v' := update_canvas_dimensions e v in
  os v' = os v /\ config_ok v' = config_ok v /\ params v' = params v /\
  vo_priv v' = set_canvas (num_rows (vo_priv v')) (num_cols (vo_priv v'))
                 (canvas_ok (vo_priv v')) (vo_priv v).
Proof.
  unfold update_canvas_dimensions.
  destruct (terminal_get_size2 e (0, 0, 0, 0)) as [[[r c] qw] qh].
  cbn. auto.
Qed.

(** C5. A positive user override replaces the queried pixel dimension
    whatever the terminal reported; without one, a non-positive queried
    dimension is replaced by the fallback (320 wide, 240 high), and a
    positive one is used as it is. *)
Theorem update_canvas_dimensions_resolves (e : env) (v : vo)
  (rows cols qw qh : Z)
  (Hq : terminal_get_size2 e (0, 0, 0, 0) = (rows, cols, qw, qh)) :
  let v' := update_canvas_dimensions e v in
  let p := vo_priv v in
  (0 < opt_width p -> dwidth v' = opt_width p) /\
  (opt_width p <= 0 -> qw <= 0 -> dwidth v' = 320) /\
  (opt_width p <= 0 -> 0 < qw -> dwidth v' = qw) /\
  (0 < opt_height p -> dheight v' = opt_height p) /\
  (opt_height p <= 0 -> qh <= 0 -> dheight v' = 240) /\
  (opt_height p <= 0 -> 0 < qh -> dheight v' = qh).
Proof.
  unfold update_canvas_dimensions. rewrite Hq. cbn.
  unfold TERMINAL_FALLBACK_PX_WIDTH, TERMINAL_FALLBACK_PX_HEIGHT.
  destruct (Z.gtb_spec (opt_width (vo_priv v)) 0) as [Hw | Hw];
    destruct (Z.leb_spec qw 0) as [Hqw | Hqw];
    destruct (Z.gtb_spec (opt_height (vo_priv v)) 0) as [Hh | Hh];
    destruct (Z.leb_spec qh 0) as [Hqh | Hqh];
    repeat split; intros; solve [reflexivity | lia].
Qed.

(** The query failing (nothing stored, so 0x0) with no override: 320x240. *)
Lemma update_canvas_dimensions_resolves_witness :
  let e := {| e_term := None; e_rects := e_rects env0; e_alloc := None;
              e_sws_reinit := 0; e_shm_open := 3; e_ftruncate := 0;
              e_mmap := 4096 |} in
  let v := vo0 in
  dwidth (update_canvas_dimensions e v) = 320 /\
  dheight (update_canvas_dimensions e v) = 240 /\
  canvas_ok (vo_priv (update_canvas_dimensions e v)) = true.
Proof.
  intros e v.
  pose proof (update_canvas_dimensions_resolves e v 0 0 0 0 eq_refl) as H.
  cbv zeta in H.
  destruct H as (_ & Hw & _ & _ & Hh & _).
  split; [apply Hw; cbn; lia|].
  split; [apply Hh; cbn; lia|].
  reflexivity.
Defined.

(** The resolver's output is positive on both axes. *)
Lemma update_canvas_dimensions_positive (e : env) (v : vo) :
  let v' := update_canvas_dimensions e v in
  0 < dwidth v' /\ 0 < dheight v' /\ canvas_ok (vo_priv v') = true.
Proof.
  unfold update_canvas_dimensions.
  destruct (terminal_get_size2 e (0, 0, 0, 0)) as [[[r c] qw] qh].
  cbn. unfold TERMINAL_FALLBACK_PX_WIDTH, TERMINAL_FALLBACK_PX_HEIGHT.
  assert (Hw : 0 < (if opt_width (vo_priv v) >? 0 then opt_width (vo_priv v)
                    else if qw <=? 0 then 320 else qw)).
  { destruct (Z.gtb_spec (opt_width (vo_priv v)) 0); [lia|].
    destruct (Z.leb_spec qw 0); lia. }
  assert (Hh : 0 < (if opt_height (vo_priv v) >? 0 then opt_height (vo_priv v)
                    else if qh <=? 0 then 240 else qh)).
  { destruct (Z.gtb_spec (opt_height (vo_priv v)) 0); [lia|].
    destruct (Z.leb_spec qh 0); lia. }
  repeat split; try assumption.
  apply andb_true_intro. split; apply Z.gtb_lt; assumption.
Qed.

Example base64_rfc4648_vectors :
  base64_encode "f" = "Zg=="%string /\
  base64_encode "fo" = "Zm8="%string /\
  base64_encode "foo" = "Zm9v"%string /\
  base64_encode "foobar" = "Zm9vYmFy"%string.
Proof. repeat split; reflexivity. Qed.

Lemma shm_name_base64 :
  SHM_NAME = ("/" ++ shm_basename SHM_NAME)%string /\
  base64_encode (shm_basename SHM_NAME) = SHM_NAME_BASE64.
Proof. split; reflexivity. Qed.

(** ** The canvas stays usable *)

Ltac break_branch :=
  match goal with
  | |- context [if ?b then _ else _] => destruct b eqn:?
  | |- context [match ?x with Some _ => _ | None => _ end] => destruct x eqn:?
  | |- context [let '(_, _) := ?x in _] => destruct x eqn:?
  end.

Lemma canvas_geometry (v v' : vo) :
  canvas v' = canvas v -> geometry_ok v -> geometry_ok v'.
Proof.
  unfold canvas, geometry_ok. intros E H. inversion E as [[Ew Eh Eok]].
  rewrite Ew, Eh, Eok. exact H.
Qed.

(** Only [update_canvas_dimensions] writes the canvas. *)
Lemma dealloc_buffers_canvas (v : vo) : canvas (dealloc_buffers v) = canvas v.
Proof. unfold dealloc_buffers. repeat break_branch; reflexivity. Qed.

Lemma set_output_parameters_canvas (e : env) (v : vo) :
  canvas (set_output_parameters e v) = canvas v.
Proof.
  unfold set_output_parameters.
  destruct (e_rects e) as [[src dst] o]. reflexivity.
Qed.

Lemma update_params_canvas (e : env) (par : mp_image_params) (v : vo) :
  canvas (snd (update_params e par v)) = canvas v.
Proof.
  unfold update_params.
  set (v0 := with_priv _ v).
  pose proof (dealloc_buffers_canvas v0) as H1.
  change (canvas v0) with (canvas v) in H1.
  set (v1 := dealloc_buffers v0) in *.
  clearbody v1. unfold canvas in *. cbn.
  destruct (mp_image_alloc e _ _); cbn; [|exact H1].
  destruct (e_sws_reinit e <? 0); exact H1.
Qed.

Lemma flip_page_canvas (v : vo) : canvas (flip_page v) = canvas v.
Proof. unfold flip_page. repeat break_branch; reflexivity. Qed.

Lemma query_format_canvas (supported : bool) (format : Z) (v : vo) :
  canvas (snd (query_format supported format v)) = canvas v.
Proof. unfold query_format. destruct supported; reflexivity. Qed.

Lemma reconfig_geometry (e : env) (par : mp_image_params) (v : vo) :
  geometry_ok (snd (reconfig e par v)).
Proof.
  unfold reconfig.
  pose proof (update_canvas_dimensions_positive e v) as H. cbv zeta in H.
  fold (geometry_ok (update_canvas_dimensions e v)) in H.
  set (v1 := update_canvas_dimensions e v) in *. clearbody v1.
  assert (Hok : canvas_ok (vo_priv v1) = true) by apply H. rewrite Hok.
  pose proof (update_params_canvas e par (set_output_parameters e v1)) as H2.
  rewrite set_output_parameters_canvas in H2.
  destruct (update_params e par (set_output_parameters e v1)) as [ret v2].
  apply (canvas_geometry v1); [|exact H]. exact H2.
Qed.

Lemma control_geometry (e : env) (request : voctrl) (v : vo) :
  geometry_ok v -> geometry_ok (snd (control e request v)).
Proof.
  intros H. unfold control. destruct request; [|exact H].
  destruct (config_ok v); [|exact H].
  pose proof (reconfig_geometry e (params v) v) as H2.
  destruct (reconfig e (params v) v) as [ret v2].
  destruct (ret =? 0); exact H2.
Qed.

Section DrawGeometry.

Variable mp_sws_scale :
  mp_sws_context -> mp_image -> src_image -> mp_rect -> list byte.
Variable mp_image_clear : mp_image -> Z -> Z -> Z -> Z -> list byte.
Variable osd_draw_on_image : mp_osd_res -> Z -> mp_image -> list byte.

Lemma draw_frame_composite_canvas (f : vo_frame) (v v' : vo) :
  draw_frame_composite mp_sws_scale mp_image_clear osd_draw_on_image f v
    = Some v' ->
  canvas v' = canvas v.
Proof.
  unfold draw_frame_composite. intros E.
  destruct (frame (vo_priv v)); [|discriminate].
  destruct (current f); inversion E; subst; reflexivity.
Qed.

Lemma draw_frame_publish_canvas (e : env) (f : vo_frame) (v v' : vo) :
  draw_frame_publish e f v = Some v' -> canvas v' = canvas v.
Proof.
  unfold draw_frame_publish. intros E. cbn in E.
  repeat match type of E with
         | context [if ?b then _ else _] => destruct b eqn:?
         | context [match ?x with Some _ => _ | None => _ end] =>
             destruct x eqn:?
         end;
    try discriminate; inversion E; subst; reflexivity.
Qed.

(** A draw that returns leaves the canvas it resolved: the next draw
    compares its own resolution with this one. *)
Lemma draw_frame_canvas (e : env) (f : vo_frame) (v v' : vo) :
  draw_frame mp_sws_scale mp_image_clear osd_draw_on_image e f v = Some v' ->
  canvas v' = canvas (update_canvas_dimensions e v).
Proof.
  unfold draw_frame. intros E.
  set (v1 := update_canvas_dimensions e v) in *. clearbody v1.
  destruct (canvas_ok (vo_priv v1)) eqn:Hok; cbn [negb] in E;
    [|inversion E; reflexivity].
  set (resized := negb (dwidth v =? dwidth v1)
                  || negb (dheight v =? dheight v1)) in *.
  set (v2 := if resized then _ else v1) in *.
  assert (H2 : canvas v2 = canvas v1).
  { subst v2. destruct resized; [|reflexivity].
    pose proof (update_params_canvas e (params v1)
                  (set_output_parameters e v1)) as H3.
    rewrite set_output_parameters_canvas in H3.
    unfold canvas in *. cbn. exact H3. }
  clearbody v2.
  destruct (repeat f && negb (redraw f) && negb resized).
  - inversion E; subst. rewrite <- H2. reflexivity.
  - destruct (draw_frame_composite _ _ _ f _) as [v3|] eqn:E3;
      [|discriminate].
    rewrite (draw_frame_publish_canvas e f v3 v' E).
    rewrite (draw_frame_composite_canvas f _ v3 E3).
    rewrite <- H2. reflexivity.
Qed.

Lemma resolved_geometry (v : vo) :
  resolved mp_sws_scale mp_image_clear osd_draw_on_image v -> geometry_ok v.
Proof.
  induction 1 as [e par v | e f v v' E | v Hv IH | e request v Hv IH
                 | supported format v Hv IH].
  - apply reconfig_geometry.
  - apply (canvas_geometry (update_canvas_dimensions e v)).
    + apply (draw_frame_canvas e f v v' E).
    + apply update_canvas_dimensions_positive.
  - apply (canvas_geometry v); [apply flip_page_canvas | exact IH].
  - apply control_geometry. exact IH.
  - apply (canvas_geometry v); [apply query_format_canvas | exact IH].
Qed.

End DrawGeometry.

(** C10. Whatever the terminal reports (stored values of any sign, or
    nothing stored) and whatever the options are, the resolver produces
    strictly positive pixel width and height and records the canvas as valid.
    The guards of [reconfig] (line 172) and [draw_frame] (line 192) read
    [canvas_ok] in exactly that state, so [reconfig] always goes on to the
    layout and the compositor; the guard of [flip_page] (line 270) reads it
    in a state reached after a resolution, where it is still true. *)
Theorem canvas_always_ok
  (mp_sws_scale : mp_sws_context -> mp_image -> src_image -> mp_rect -> list byte)
  (mp_image_clear : mp_image -> Z -> Z -> Z -> Z -> list byte)
  (osd_draw_on_image : mp_osd_res -> Z -> mp_image -> list byte) :
  (forall e v,
      let v' := update_canvas_dimensions e v in
      0 < dwidth v' /\ 0 < dheight v' /\ canvas_ok (vo_priv v') = true) /\
  (forall e par v,
      reconfig e par v =
      let r := update_params e par
                 (set_output_parameters e (update_canvas_dimensions e v)) in
      (fst r, set_want_redraw true
                (with_os (emit (Printf ESC_CLEAR_SCREEN)) (snd r)))) /\
  (forall v,
      resolved mp_sws_scale mp_image_clear osd_draw_on_image v ->
      0 < dwidth v /\ 0 < dheight v /\ canvas_ok (vo_priv v) = true).
Proof.
  split; [|split].
  - intros e v. apply update_canvas_dimensions_positive.
  - intros e par v. unfold reconfig.
    destruct (update_canvas_dimensions_positive e v) as (_ & _ & Hok).
    rewrite Hok.
    destruct (update_params e par _) as [ret v2]. reflexivity.
  - intros v Hv.
    apply (resolved_geometry mp_sws_scale mp_image_clear osd_draw_on_image).
    exact Hv.
Qed.

(** The driver configured by [reconfig] and then presented to. *)
Lemma canvas_always_ok_witness :
  0 < dwidth (flip_page vo_ready) /\ 0 < dheight (flip_page vo_ready) /\
  canvas_ok (vo_priv (flip_page vo_ready)) = true.
Proof.
  apply (canvas_always_ok scale0 clear0 osd0).
  apply resolved_flip. unfold vo_ready. apply resolved_reconfig.
Defined.

(** ** Layout *)

(** C4. With positive canvas pixel dimensions, the image origin cell is the
    user's [top] (resp. [left]) when that is positive, and otherwise
    [floor (rows * dst.y0 / canvas pixel height) + 1] (resp.
    [floor (cols * dst.x0 / canvas pixel width) + 1]): the divisor is the
    canvas size in pixels and the result is 1-based.  The terminal's cell
    counts and the origin of the destination rectangle, which lies inside
    the canvas, are not negative, and their products fit an [int]. *)
Theorem set_output_parameters_origin (e : env) (v : vo)
  (src dst : mp_rect) (o : mp_osd_res)
  (Hr : e_rects e = (src, dst, o))
  (Hw : 0 < dwidth v) (Hh : 0 < dheight v)
  (Hcells : 0 <= num_rows (vo_priv v) /\ 0 <= num_cols (vo_priv v))
  (Horigin : 0 <= x0 dst /\ 0 <= y0 dst)
  (Hrows : num_rows (vo_priv v) * y0 dst < CInt.int_max)
  (Hcols : num_cols (vo_priv v) * x0 dst < CInt.int_max) :
  let p := vo_priv v in
  let p' := vo_priv (set_output_parameters e v) in
  (0 < opt_top p -> top p' = opt_top p) /\
  (opt_top p <= 0 -> top p' = num_rows p * y0 dst / dheight v + 1) /\
  (0 < opt_left p -> left p' = opt_left p) /\
  (opt_left p <= 0 -> left p' = num_cols p * x0 dst / dwidth v + 1) /\
  1 <= (num_rows p * y0 dst / dheight v + 1) /\
  1 <= (num_cols p * x0 dst / dwidth v + 1).
Proof.
  destruct Hcells as [Hnr Hnc]. destruct Horigin as [Hx Hy].
  assert (Hrows' : 0 <= num_rows (vo_priv v) * y0 dst < CInt.int_max)
    by (split; [apply Z.mul_nonneg_nonneg; assumption | exact Hrows]).
  assert (Hcols' : 0 <= num_cols (vo_priv v) * x0 dst < CInt.int_max)
    by (split; [apply Z.mul_nonneg_nonneg; assumption | exact Hcols]).
  unfold set_output_parameters. rewrite Hr. cbn.
  rewrite (cell_of_pixel_exact _ _ _ Hrows' Hh).
  rewrite (cell_of_pixel_exact _ _ _ Hcols' Hw).
  destruct (Z.gtb_spec (opt_top (vo_priv v)) 0);
    destruct (Z.gtb_spec (opt_left (vo_priv v)) 0);
    repeat split; intros; try reflexivity; try lia;
    match goal with
    | |- 1 <= ?a / ?b + 1 =>
        assert (0 <= a / b) by (apply Z.div_pos; lia); lia
    end.
Qed.

(** A 600 pixel high canvas of 24 rows with the picture starting at pixel
    row 130: cell row [floor (24 * 130 / 600) + 1 = 6]; at pixel column 100 of
    960 with 80 columns: cell column [floor (80 * 100 / 960) + 1 = 9]. *)
Lemma set_output_parameters_origin_witness :
  let e := {| e_term := None;
              e_rects := (mk_rect 0 0 1920 1080, mk_rect 100 130 860 470,
                          mk_osd_res 960 600);
              e_alloc := None; e_sws_reinit := 0; e_shm_open := 3;
              e_ftruncate := 0; e_mmap := 4096 |} in
  let v := with_priv (set_canvas 24 80 true)
             (set_dsize 960 600 vo0) in
  top (vo_priv (set_output_parameters e v)) = 6 /\
  left (vo_priv (set_output_parameters e v)) = 9.
Proof.
  intros e v.
  assert (Hw : 0 < dwidth v) by (cbn; lia).
  assert (Hh : 0 < dheight v) by (cbn; lia).
  assert (Hcells : 0 <= num_rows (vo_priv v) /\ 0 <= num_cols (vo_priv v))
    by (cbn; lia).
  assert (Horigin : 0 <= 100 /\ 0 <= 130) by lia.
  assert (Hrows : num_rows (vo_priv v) * 130 < CInt.int_max)
    by (cbn; unfold CInt.int_max; lia).
  assert (Hcols : num_cols (vo_priv v) * 100 < CInt.int_max)
    by (cbn; unfold CInt.int_max; lia).
  pose proof (set_output_parameters_origin e v _ (mk_rect 100 130 860 470) _
                eq_refl Hw Hh Hcells Horigin Hrows Hcols) as H.
  cbv zeta in H. destruct H as (_ & Ht & _ & Hl & _).
  split; [rewrite Ht by (cbn; lia) | rewrite Hl by (cbn; lia)]; reflexivity.
Defined.

(** ** Control *)

Lemma update_params_ret (e : env) (par : mp_image_params) (v : vo) :
  fst (update_params e par v) = 0 \/ fst (update_params e par v) = -1.
Proof.
  unfold update_params. cbn.
  destruct (mp_image_alloc e _ _); cbn; [|now right].
  destruct (e_sws_reinit e <? 0); cbn; auto.
Qed.

Lemma reconfig_ret (e : env) (par : mp_image_params) (v : vo) :
  fst (reconfig e par v) = 0 \/ fst (reconfig e par v) = -1.
Proof.
  unfold reconfig.
  destruct (canvas_ok (vo_priv (update_canvas_dimensions e v))); [|now left].
  pose proof (update_params_ret e par
                (set_output_parameters e (update_canvas_dimensions e v))) as H.
  destruct (update_params e par _) as [ret v2]. exact H.
Qed.

(** C9. On the set-panscan request, a driver holding a valid configuration
    re-runs [reconfig] on the current parameters and answers [VO_TRUE] when
    it returned 0 and [VO_FALSE] when it failed (returned -1), the state being
    the one [reconfig] left; a driver without a valid configuration does not
    run it, leaves the state as it is and answers [VO_FALSE]. *)
Theorem control_set_panscan (e : env) (v : vo) :
  let r := reconfig e (params v) v in
  (config_ok v = true ->
     snd (control e VOCTRL_SET_PANSCAN v) = snd r /\
     (fst r = 0 -> fst (control e VOCTRL_SET_PANSCAN v) = VO_TRUE) /\
     (fst r = -1 -> fst (control e VOCTRL_SET_PANSCAN v) = VO_FALSE) /\
     (fst r = 0 \/ fst r = -1)) /\
  (config_ok v = false -> control e VOCTRL_SET_PANSCAN v = (VO_FALSE, v)).
Proof.
  cbv zeta. unfold control. split; intros Hc; rewrite Hc.
  - pose proof (reconfig_ret e (params v) v) as Hret.
    destruct (reconfig e (params v) v) as [ret v2]. cbn in *.
    repeat split.
    + destruct (ret =? 0); reflexivity.
    + intros ->. reflexivity.
    + intros ->. reflexivity.
    + exact Hret.
  - reflexivity.
Qed.

(** The ready driver answers [VO_TRUE]; the same driver with its
    configuration marked invalid answers [VO_FALSE] and is left alone. *)
Lemma control_set_panscan_witness :
  fst (control env0 VOCTRL_SET_PANSCAN vo_ready) = VO_TRUE /\
  control env0 VOCTRL_SET_PANSCAN (set_config_ok false vo_ready)
    = (VO_FALSE, set_config_ok false vo_ready).
Proof.
  split.
  - apply (proj1 (control_set_panscan env0 vo_ready) eq_refl). reflexivity.
  - apply (proj2 (control_set_panscan env0 (set_config_ok false vo_ready))).
    reflexivity.
Defined.

(** ** Present *)

Lemma filter_not_in_fd (fd : Z) (l : list Z) :
  ~ In fd (filter (fun d => negb (d =? fd)) l).
Proof.
  intros H. apply filter_In in H. destruct H as [_ H].
  rewrite Z.eqb_refl in H. discriminate.
Qed.

Lemma filter_not_in_map (addr : Z) (l : list (Z * Z)) (len : Z) :
  ~ In (addr, len) (filter (fun m => negb (fst m =? addr)) l).
Proof.
  intros H. apply filter_In in H. destruct H as [_ H].
  cbn in H. rewrite Z.eqb_refl in H. discriminate.
Qed.

Lemma flip_page_trace_shape (v : vo) :
  canvas_ok (vo_priv v) = true -> skip_frame_draw (vo_priv v) = false ->
  exists cursor,
    trace (os (flip_page v)) =
      trace (os v) ++
      [ cursor;
        Printf (kitty_transfer (width (vo_priv v)) (height (vo_priv v))
                  SHM_NAME_BASE64);
        Fflush;
        Munmap (buffer (vo_priv v))
          (CInt.umul (CInt.mul (width (vo_priv v)) (height (vo_priv v)))
             depth);
        Close (mmap_fd (vo_priv v)) ].
Proof.
  intros Hok Hskip. unfold flip_page. rewrite Hok, Hskip. cbn.
  eexists. repeat rewrite <- app_assoc. reflexivity.
Qed.

(** C8. With the canvas invalid or the frame marked skippable, [flip_page]
    changes nothing.  Otherwise it makes exactly five calls, in this order:
    the cursor move to row [top], column [left]; the graphics command with
    action transmit-and-display, format 32, medium shared memory, size
    [width] x [height] and the base64 text of the object's name (kitty_img,
    which is [SHM_NAME] without the slash that opens the portable form); the
    flush of stdout; the [munmap] of the buffer; the [close] of the
    descriptor.  No [shm_unlink] is among them and the named object keeps its
    bytes; afterwards the driver records no buffer and no descriptor, and
    the process holds neither. *)
Theorem flip_page_presents (v : vo) :
  let p := vo_priv v in
  let v' := flip_page v in
  ((canvas_ok p = false \/ skip_frame_draw p = true) -> v' = v) /\
  (canvas_ok p = true -> skip_frame_draw p = false ->
     trace (os v') =
       trace (os v) ++
       [ Printf (ESC ++ "[" ++ fmt_d (top p) ++ ";" ++ fmt_d (left p) ++ "f");
         Printf (ESC ++ "_Ga=T,f=32,t=s,s=" ++ fmt_u (width p)
                     ++ ",v=" ++ fmt_u (height p) ++ ";"
                     ++ base64_encode (shm_basename SHM_NAME) ++ ESC ++ "\");
         Fflush;
         Munmap (buffer p) (CInt.umul (CInt.mul (width p) (height p)) depth);
         Close (mmap_fd p) ] /\
     shm (os v') = shm (os v) /\
     buffer (vo_priv v') = NULL /\
     mmap_fd (vo_priv v') = -1 /\
     (forall len, ~ In (buffer p, len) (maps (os v'))) /\
     ~ In (mmap_fd p) (fds (os v'))).
Proof.
  cbv zeta. unfold flip_page. split.
  - intros [H | H]; rewrite H; cbn; [reflexivity|].
    destruct (canvas_ok (vo_priv v)); reflexivity.
  - intros Hok Hskip. rewrite Hok, Hskip.
    destruct shm_name_base64 as [_ Hname]. rewrite Hname. cbn.
    repeat split.
    + repeat rewrite <- app_assoc. reflexivity.
    + intros len. apply filter_not_in_map.
    + apply filter_not_in_fd.
Qed.

(** The frame drawn on the ready driver is presented at row 12, column 40
    as an 8x4 image; a repeated frame is not presented at all. *)
Lemma flip_page_presents_witness :
  draw_frame scale0 clear0 osd0 env0 new_frame vo_ready = Some vo_drawn /\
  draw_frame scale0 clear0 osd0 env0 repeated_frame vo_ready
    = Some vo_repeated /\
  new_events vo_drawn (flip_page vo_drawn) =
    [ Printf (ESC ++ "[12;40f");
      Printf (ESC ++ "_Ga=T,f=32,t=s,s=8,v=4;a2l0dHlfaW1n" ++ ESC ++ "\");
      Fflush; Munmap 4096 128; Close 3 ] /\
  flip_page vo_repeated = vo_repeated.
Proof.
  split; [vm_compute; reflexivity|].
  split; [vm_compute; reflexivity|].
  split.
  - unfold new_events.
    rewrite (proj1 (proj2 (flip_page_presents vo_drawn) eq_refl eq_refl)).
    rewrite skipn_app, skipn_all, Nat.sub_diag. reflexivity.
  - apply (proj1 (flip_page_presents vo_repeated)). right. reflexivity.
Defined.

(** ** What a draw adds to the trace *)

Lemma new_events_app (v v' : vo) (evs : list event) :
  trace (os v') = trace (os v) ++ evs -> new_events v v' = evs.
Proof.
  intros H. unfold new_events. rewrite H.
  rewrite skipn_app, skipn_all, Nat.sub_diag. reflexivity.
Qed.

Lemma dealloc_buffers_trace (v : vo) :
  exists evs, trace (os (dealloc_buffers v)) = trace (os v) ++ evs.
Proof.
  unfold dealloc_buffers.
  repeat break_branch; cbn; repeat rewrite <- app_assoc;
    try (eexists; reflexivity).
  exists []. now rewrite app_nil_r.
Qed.

Lemma update_params_trace (e : env) (par : mp_image_params) (v : vo) :
  exists evs, trace (os (snd (update_params e par v))) = trace (os v) ++ evs.
Proof.
  unfold update_params.
  set (v0 := with_priv _ v).
  destruct (dealloc_buffers_trace v0) as [evs H].
  assert (H0 : trace (os v0) = trace (os v)) by reflexivity.
  rewrite H0 in H. clearbody v0.
  cbn. destruct (mp_image_alloc e _ _); cbn.
  - destruct (e_sws_reinit e <? 0); cbn; rewrite H;
      repeat rewrite <- app_assoc; eexists; reflexivity.
  - rewrite H. repeat rewrite <- app_assoc. eexists; reflexivity.
Qed.

Lemma set_output_parameters_os (e : env) (v : vo) :
  os (set_output_parameters e v) = os v.
Proof.
  unfold set_output_parameters. destruct (e_rects e) as [[src dst] o].
  reflexivity.
Qed.

(** ** Copying the raster *)

Lemma memcpy_some (dst : list byte) (doff : Z) (src : list byte) (soff n : Z) :
  0 <= doff -> 0 <= soff -> 0 <= n ->
  doff + n <= Z.of_nat (List.length dst) ->
  soff + n <= Z.of_nat (List.length src) ->
  memcpy dst doff src soff n =
    Some (firstn (Z.to_nat doff) dst
          ++ firstn (Z.to_nat n) (skipn (Z.to_nat soff) src)
          ++ skipn (Z.to_nat (doff + n)) dst).
Proof.
  intros Hd Hs Hn Hdl Hsl. unfold memcpy.
  apply Z.leb_le in Hd, Hs, Hn, Hdl, Hsl.
  rewrite Hd, Hs, Hn, Hdl, Hsl. reflexivity.
Qed.

Lemma memcpy_length (dst : list byte) (doff : Z) (src : list byte)
  (soff n : Z) (dst' : list byte) :
  memcpy dst doff src soff n = Some dst' ->
  List.length dst' = List.length dst.
Proof.
  unfold memcpy.
  destruct (_ && _) eqn:C; [|discriminate].
  repeat (apply andb_prop in C; destruct C as [C ?]).
  repeat match goal with H : (_ <=? _) = true |- _ => apply Z.leb_le in H end.
  intros E. inversion E; subst; clear E.
  rewrite !length_app, !length_firstn, !length_skipn. lia.
Qed.

Lemma memcpy_pic_rows_length (k : nat) :
  forall (dst src : list byte) (doff soff line ds ss : Z) (dst' : list byte),
    memcpy_pic_rows k dst src doff soff line ds ss = Some dst' ->
    List.length dst' = List.length dst.
Proof.
  induction k as [|k IH]; intros dst src doff soff line ds ss dst' E; cbn in E.
  - inversion E. reflexivity.
  - destruct (memcpy dst doff src soff line) as [d1|] eqn:E1; [|discriminate].
    rewrite (IH _ _ _ _ _ _ _ _ E). eapply memcpy_length. exact E1.
Qed.

Lemma raster_rows_from_S (bytes : list byte) (from stride line : Z) (k : nat) :
  raster_rows_from bytes from stride line (S k) =
  firstn (Z.to_nat line) (skipn (Z.to_nat from) bytes)
    ++ raster_rows_from bytes (from + stride) stride line k.
Proof.
  unfold raster_rows_from.
  change (seq 0 (S k)) with (0%nat :: seq 1 k).
  rewrite <- seq_shift. cbn [map List.concat]. rewrite map_map.
  f_equal.
  - do 3 f_equal. cbn. lia.
  - f_equal. apply map_ext. intros r. do 3 f_equal.
    rewrite Nat2Z.inj_succ. lia.
Qed.

Lemma raster_rows_from_length (bytes : list byte) (stride line : Z) (k : nat) :
  forall from,
    0 <= from -> 0 <= stride -> 0 <= line ->
    (k <> O ->
     from + Z.of_nat (pred k) * stride + line <= Z.of_nat (List.length bytes)) ->
    List.length (raster_rows_from bytes from stride line k)
    = (k * Z.to_nat line)%nat.
Proof.
  induction k as [|k IH]; intros from Hf Hs Hl Hb; [reflexivity|].
  rewrite raster_rows_from_S, length_app, length_firstn, length_skipn.
  assert (Hb' := Hb ltac:(discriminate)). cbn [pred] in Hb'.
  assert (Hks : 0 <= Z.of_nat k * stride)
    by (apply Z.mul_nonneg_nonneg; lia).
  assert (Hnext : k <> O ->
            from + stride + Z.of_nat (pred k) * stride + line
            <= Z.of_nat (List.length bytes)).
  { intros Hk. destruct k as [|k']; [congruence|]. cbn [pred].
    rewrite Nat2Z.inj_succ in Hb'. lia. }
  rewrite (IH (from + stride) ltac:(lia) Hs Hl Hnext).
  cbn [Nat.mul]. lia.
Qed.

(** Row by row, the copy overwrites [k] lines of the destination, starting
    at [doff], with the source's rows. *)
Lemma memcpy_pic_rows_spec (src : list byte) (line stride : Z) (k : nat) :
  forall (dst : list byte) (doff soff : Z),
    0 <= doff -> 0 <= soff -> 0 <= line -> 0 <= stride ->
    doff + Z.of_nat k * line <= Z.of_nat (List.length dst) ->
    (k <> O ->
     soff + Z.of_nat (pred k) * stride + line <= Z.of_nat (List.length src)) ->
    memcpy_pic_rows k dst src doff soff line line stride =
      Some (firstn (Z.to_nat doff) dst
            ++ raster_rows_from src soff stride line k
            ++ skipn (Z.to_nat (doff + Z.of_nat k * line)) dst).
Proof.
  induction k as [|k IH]; intros dst doff soff Hd Hs Hl Hst Hdl Hsl.
  - cbn. rewrite Z.add_0_r, firstn_skipn. reflexivity.
  - assert (Hsl' := Hsl ltac:(discriminate)). cbn [pred] in Hsl'.
    rewrite Nat2Z.inj_succ in Hdl.
    assert (Hks : 0 <= Z.of_nat k * stride)
      by (apply Z.mul_nonneg_nonneg; lia).
    assert (Hkl : 0 <= Z.of_nat k * line)
      by (apply Z.mul_nonneg_nonneg; lia).
    cbn [memcpy_pic_rows].
    rewrite memcpy_some by lia.
    set (row := firstn (Z.to_nat line) (skipn (Z.to_nat soff) src)).
    assert (Hrow : List.length row = Z.to_nat line).
    { subst row. rewrite length_firstn, length_skipn. lia. }
    set (d1 := firstn (Z.to_nat doff) dst ++ row
               ++ skipn (Z.to_nat (doff + line)) dst).
    assert (Hhead : List.length (firstn (Z.to_nat doff) dst) = Z.to_nat doff).
    { rewrite length_firstn. lia. }
    assert (Hd1 : List.length d1 = List.length dst).
    { subst d1. rewrite !length_app, Hhead, Hrow, length_skipn. lia. }
    assert (Hnext : k <> O ->
              soff + stride + Z.of_nat (pred k) * stride + line
              <= Z.of_nat (List.length src)).
    { intros Hk. destruct k as [|k']; [congruence|]. cbn [pred].
      rewrite Nat2Z.inj_succ in Hsl'. lia. }
    rewrite (IH d1 (doff + line) (soff + stride)
               ltac:(lia) ltac:(lia) Hl Hst ltac:(lia) Hnext).
    rewrite raster_rows_from_S. fold row. f_equal.
    assert (F : firstn (Z.to_nat (doff + line)) d1
                = firstn (Z.to_nat doff) dst ++ row).
    { subst d1. rewrite app_assoc, firstn_app.
      rewrite length_app, Hhead, Hrow.
      replace (Z.to_nat (doff + line) - (Z.to_nat doff + Z.to_nat line))%nat
        with O by lia.
      rewrite firstn_O, app_nil_r.
      apply firstn_all2. rewrite length_app, Hhead, Hrow. lia. }
    rewrite F, <- !app_assoc. do 3 f_equal.
    subst d1. rewrite app_assoc, skipn_app.
    rewrite length_app, Hhead, Hrow.
    rewrite skipn_all2 by (rewrite length_app, Hhead, Hrow; lia).
    cbn [app]. rewrite skipn_skipn. f_equal.
    rewrite Nat2Z.inj_succ. lia.
Qed.

(** ** Publishing *)

Lemma resize_length (n : nat) (l : list byte) : List.length (resize n l) = n.
Proof. unfold resize. rewrite length_app, length_firstn, repeat_length. lia. Qed.

(** The four ways [draw_frame]'s publishing part ends, with the calls of
    each: [shm_open] failed, [ftruncate] failed, [mmap] failed, or the
    raster was copied into the mapped object. *)
Lemma draw_frame_publish_cases (e : env) (f : vo_frame) (v v' : vo) :
  draw_frame_publish e f v = Some v' ->
  let fd := e_shm_open e in
  let size := CInt.wrap (CInt.umul (CInt.mul (width (vo_priv v))
                                             (height (vo_priv v))) depth) in
  (fd = -1 /\
   new_events v v' =
     [Shm_open SHM_NAME fd; MP_WARN "Failed to create SHM object"]) \/
  (fd <> -1 /\ e_ftruncate e = -1 /\
   new_events v v' =
     [Shm_open SHM_NAME fd; Ftruncate fd size (-1);
      MP_WARN "Failed to truncate SHM object"; Shm_unlink SHM_NAME;
      Close fd]) \/
  (fd <> -1 /\ e_ftruncate e <> -1 /\ e_mmap e = MAP_FAILED /\
   new_events v v' =
     [Shm_open SHM_NAME fd; Ftruncate fd size (e_ftruncate e);
      Mmap size fd MAP_FAILED;
      MP_WARN "Failed to mmap SHM object"; Shm_unlink SHM_NAME;
      Close fd]) \/
  (fd <> -1 /\ e_ftruncate e <> -1 /\ e_mmap e <> MAP_FAILED /\
   exists line stride tail region,
     new_events v v' =
       [Shm_open SHM_NAME fd; Ftruncate fd size (e_ftruncate e);
        Mmap size fd (e_mmap e);
        Memcpy_pic line (height (vo_priv v)) line stride] ++ tail /\
     (tail = [] \/ tail = [Image_unref]) /\
     shm (os v') = Some region /\
     List.length region = Z.to_nat size /\
     In (e_mmap e, size) (maps (os v'))).
Proof.
  cbv zeta. unfold draw_frame_publish, sys_shm_open, sys_ftruncate, sys_mmap.
  cbn. intros E.
  destruct (Z.eqb_spec (e_shm_open e) (-1)) as [E1|E1].
  { left. inversion E; subst; clear E. split; [assumption|].
    apply new_events_app. cbn. rewrite <- app_assoc. reflexivity. }
  right.
  destruct (Z.eqb_spec (e_ftruncate e) (-1)) as [E2|E2].
  { left. inversion E; subst; clear E. rewrite E2.
    repeat split; try assumption.
    apply new_events_app. cbn. repeat rewrite <- app_assoc. reflexivity. }
  right.
  destruct (Z.eqb_spec (e_mmap e) MAP_FAILED) as [E3|E3].
  { left. inversion E; subst; clear E. rewrite E3.
    repeat split; try assumption.
    apply new_events_app. cbn. repeat rewrite <- app_assoc. reflexivity. }
  right. cbn in E.
  destruct (frame (vo_priv v)) as [img|]; [|discriminate].
  destruct (memcpy_pic _ _ _ _ _ _) as [region'|] eqn:Em; [|discriminate].
  repeat split; try assumption.
  apply memcpy_pic_rows_length in Em. rewrite resize_length in Em.
  destruct (current f); inversion E; subst; clear E.
  - eexists _, _, [Image_unref], region'. repeat split.
    + apply new_events_app. cbn. repeat rewrite <- app_assoc. reflexivity.
    + now right.
    + exact Em.
    + cbn. left. reflexivity.
  - eexists _, _, [], region'. repeat split.
    + apply new_events_app. cbn. repeat rewrite <- app_assoc. reflexivity.
    + now left.
    + exact Em.
    + cbn. left. reflexivity.
Qed.

(** ** Sizes of the raster and of the transfer buffer *)

Lemma dealloc_buffers_size (v : vo) :
  width (vo_priv (dealloc_buffers v)) = width (vo_priv v) /\
  height (vo_priv (dealloc_buffers v)) = height (vo_priv v).
Proof.
  unfold dealloc_buffers. repeat break_branch; cbn; auto.
Qed.

Lemma update_params_alloc (e : env) (par : mp_image_params) (v : vo) :
  let v1 := snd (update_params e par v) in
  width (vo_priv v1) = width (vo_priv v) /\
  height (vo_priv v1) = height (vo_priv v) /\
  In (Image_alloc (width (vo_priv v)) (height (vo_priv v))) (new_events v v1) /\
  frame (vo_priv v1)
    = mp_image_alloc e (width (vo_priv v)) (height (vo_priv v)).
Proof.
  cbv zeta. unfold update_params.
  set (v0 := with_priv _ v).
  destruct (dealloc_buffers_trace v0) as [evs H].
  destruct (dealloc_buffers_size v0) as [Hw Hh].
  change (trace (os v0)) with (trace (os v)) in H.
  change (width (vo_priv v0)) with (width (vo_priv v)) in Hw.
  change (height (vo_priv v0)) with (height (vo_priv v)) in Hh.
  clearbody v0. cbn. rewrite Hw, Hh.
  assert (Hin : forall tail,
             In (Image_alloc (width (vo_priv v)) (height (vo_priv v)))
                (evs ++ Image_alloc (width (vo_priv v)) (height (vo_priv v))
                     :: tail)).
  { intros tail. apply in_or_app. right. left. reflexivity. }
  destruct (mp_image_alloc e _ _) as [img|]; cbn.
  - destruct (e_sws_reinit e <? 0); cbn; repeat split; auto;
      match goal with
      | |- In _ (new_events v ?r) =>
          assert (Ht : exists tail,
                     trace (os r) =
                     trace (os v)
                       ++ (evs ++ Image_alloc (width (vo_priv v))
                                    (height (vo_priv v)) :: tail))
            by (eexists; cbn; rewrite H; repeat rewrite <- app_assoc;
                reflexivity);
          destruct Ht as [tail Ht];
          rewrite (new_events_app _ _ _ Ht); apply Hin
      end.
  - repeat split; auto.
    match goal with
    | |- In _ (new_events v ?r) =>
        assert (Ht : trace (os r) =
                     trace (os v)
                       ++ (evs ++ Image_alloc (width (vo_priv v))
                                    (height (vo_priv v)) :: []))
          by (cbn; rewrite H; repeat rewrite <- app_assoc; reflexivity);
        rewrite (new_events_app _ _ _ Ht); apply Hin
    end.
Qed.

Lemma valid_layout_bounds (dst : mp_rect) :
  valid_layout dst = true ->
  CInt.sub (x1 dst) (x0 dst) = x1 dst - x0 dst /\
  CInt.sub (y1 dst) (y0 dst) = y1 dst - y0 dst /\
  0 <= x1 dst - x0 dst /\ 0 <= y1 dst - y0 dst /\
  (x1 dst - x0 dst) * (y1 dst - y0 dst) * 4 <= CInt.int_max.
Proof.
  unfold valid_layout. intros H.
  repeat (apply andb_prop in H; destruct H as [H ?]).
  repeat match goal with H : (_ <=? _) = true |- _ => apply Z.leb_le in H end.
  unfold CInt.sub.
  rewrite !wrap_small
    by (unfold CInt.in_range, CInt.int_min, CInt.int_max in *; lia).
  repeat split; lia.
Qed.

(** C6. For a valid layout, the raster is allocated with exactly the width
    and height of the destination rectangle, [(x1 - x0, y1 - y0)], which are
    also the [width] and [height] the driver records; and every
    draw that publishes with those recorded dimensions sizes and maps the
    shared-memory object with exactly [width * height * 4] bytes, the object
    holding that many bytes once the raster has been copied into it. *)
Theorem transfer_sizes (e : env) (par : mp_image_params) (v : vo)
  (src dst : mp_rect) (o : mp_osd_res)
  (Hr : e_rects e = (src, dst, o))
  (Hv : valid_layout dst = true) :
  let w := x1 dst - x0 dst in
  let h := y1 dst - y0 dst in
  let v1 := snd (update_params e par (set_output_parameters e v)) in
  width (vo_priv v1) = w /\ height (vo_priv v1) = h /\
  In (Image_alloc w h) (new_events v v1) /\
  (forall img, frame (vo_priv v1) = Some img -> im_w img = w /\ im_h img = h) /\
  (forall e' f v2 v3,
      width (vo_priv v2) = w -> height (vo_priv v2) = h ->
      draw_frame_publish e' f v2 = Some v3 ->
      (forall fd size ret,
          In (Ftruncate fd size ret) (new_events v2 v3) -> size = w * h * 4) /\
      (forall len fd ret,
          In (Mmap len fd ret) (new_events v2 v3) -> len = w * h * 4) /\
      (e_shm_open e' <> -1 -> e_ftruncate e' <> -1 ->
       e_mmap e' <> MAP_FAILED ->
       In (Ftruncate (e_shm_open e') (w * h * 4) (e_ftruncate e'))
          (new_events v2 v3) /\
       In (e_mmap e', w * h * 4) (maps (os v3)) /\
       exists region,
         shm (os v3) = Some region /\
         Z.of_nat (List.length region) = w * h * 4)).
Proof.
  cbv zeta.
  destruct (valid_layout_bounds dst Hv) as (Hsw & Hsh & Hw0 & Hh0 & Hmax).
  set (v0 := set_output_parameters e v).
  assert (Hw : width (vo_priv v0) = x1 dst - x0 dst).
  { subst v0. unfold set_output_parameters. rewrite Hr. cbn. exact Hsw. }
  assert (Hh : height (vo_priv v0) = y1 dst - y0 dst).
  { subst v0. unfold set_output_parameters. rewrite Hr. cbn. exact Hsh. }
  assert (Hos : trace (os v0) = trace (os v)).
  { subst v0. now rewrite set_output_parameters_os. }
  destruct (update_params_alloc e par v0) as (Hw1 & Hh1 & Hin & Hfr).
  unfold new_events in Hin. rewrite Hos, Hw, Hh in Hin.
  rewrite Hw, Hh in Hfr. rewrite Hw in Hw1. rewrite Hh in Hh1.
  clearbody v0.
  split; [exact Hw1|]. split; [exact Hh1|]. split; [exact Hin|].
  split.
  { intros img Himg. rewrite Hfr in Himg. unfold mp_image_alloc in Himg.
    destruct (e_alloc e) as [[stride bytes]|]; [|discriminate].
    inversion Himg; subst. cbn. auto. }
  intros e' f v2 v3 Hw2 Hh2 Ep.
  assert (Hnn : 0 <= (x1 dst - x0 dst) * (y1 dst - y0 dst) * 4)
    by (apply Z.mul_nonneg_nonneg; [apply Z.mul_nonneg_nonneg|]; lia).
  assert (Hsize : CInt.wrap (CInt.umul (CInt.mul (width (vo_priv v2))
                                          (height (vo_priv v2))) depth)
                  = (x1 dst - x0 dst) * (y1 dst - y0 dst) * 4).
  { rewrite Hw2, Hh2, byte_count_exact by lia.
    apply wrap_small.
    unfold CInt.in_range, CInt.int_min, CInt.int_max in *. lia. }
  pose proof (draw_frame_publish_cases e' f v2 v3 Ep) as C.
  cbv zeta in C. rewrite Hsize in C.
  destruct C as [(F1 & Ev) | [(F1 & F2 & Ev) | [(F1 & F2 & F3 & Ev)
               | (F1 & F2 & F3 & line & stride & tail & region & Ev & Ht
                  & Hshm & Hlen & Hmap)]]];
    rewrite Ev.
  - repeat split; try contradiction.
    + intros fd s r [X | [X | []]]; discriminate.
    + intros l fd r [X | [X | []]]; discriminate.
  - repeat split; try contradiction.
    + intros fd s r [X | [X | [X | [X | [X | []]]]]];
        try discriminate. now inversion X.
    + intros l fd r [X | [X | [X | [X | [X | []]]]]]; discriminate.
  - repeat split; try contradiction.
    + intros fd s r [X | [X | [X | [X | [X | [X | []]]]]]];
        try discriminate. now inversion X.
    + intros l fd r [X | [X | [X | [X | [X | [X | []]]]]]];
        try discriminate. now inversion X.
  - split; [|split].
    + intros fd s r [X | [X | [X | [X | X]]]];
        try discriminate; [now inversion X|].
      destruct Ht as [-> | ->]; [destruct X|].
      destruct X as [X | []]. discriminate.
    + intros l fd r [X | [X | [X | [X | X]]]];
        try discriminate; [now inversion X|].
      destruct Ht as [-> | ->]; [destruct X|].
      destruct X as [X | []]. discriminate.
    + intros _ _ _. split; [right; left; reflexivity|].
      split; [exact Hmap|].
      exists region. split; [exact Hshm|]. rewrite Hlen. lia.
Qed.

(** The 8x4 raster of the driver configured for the 960x600 canvas, and the
    128 bytes of its first transfer. *)
Lemma transfer_sizes_witness :
  let v1 := snd (update_params env0 params0
                   (set_output_parameters env0
                      (update_canvas_dimensions env0 vo_init))) in
  width (vo_priv v1) = 484 - 476 /\ height (vo_priv v1) = 302 - 298 /\
  (forall img, frame (vo_priv v1) = Some img ->
     im_w img = 484 - 476 /\ im_h img = 302 - 298) /\
  In (Ftruncate 3 ((484 - 476) * (302 - 298) * 4) 0)
     (new_events vo_composited vo_drawn) /\
  In (4096, (484 - 476) * (302 - 298) * 4) (maps (os vo_drawn)) /\
  exists region,
    shm (os vo_drawn) = Some region /\
    Z.of_nat (List.length region) = (484 - 476) * (302 - 298) * 4.
Proof.
  intros v1.
  pose proof (transfer_sizes env0 params0
                (update_canvas_dimensions env0 vo_init)
                _ (mk_rect 476 298 484 302) _ eq_refl eq_refl) as H.
  cbv zeta in H. fold v1 in H. destruct H as (Hw & Hh & _ & Hf & Hp).
  assert (E : draw_frame_publish env0 new_frame vo_composited = Some vo_drawn)
    by (vm_compute; reflexivity).
  assert (E1 : width (vo_priv vo_composited) = 484 - 476)
    by (vm_compute; reflexivity).
  assert (E2 : height (vo_priv vo_composited) = 302 - 298)
    by (vm_compute; reflexivity).
  destruct (Hp env0 new_frame vo_composited vo_drawn E1 E2 E) as (_ & _ & Hs).
  assert (N1 : e_shm_open env0 <> -1) by (vm_compute; discriminate).
  assert (N2 : e_ftruncate env0 <> -1) by (vm_compute; discriminate).
  assert (N3 : e_mmap env0 <> MAP_FAILED) by (vm_compute; discriminate).
  destruct (Hs N1 N2 N3) as (Ht & Hm & Hreg).
  split; [exact Hw|]. split; [exact Hh|]. split; [exact Hf|].
  split; [exact Ht|]. split; [exact Hm|]. exact Hreg.
Defined.

(** ** Round trip through the shared-memory object *)

Lemma raster_rows_from_row (bytes : list byte) (stride line : Z) (k : nat) :
  forall (from : Z) (r : nat),
    0 <= from -> 0 <= stride -> 0 <= line ->
    (k <> O ->
     from + Z.of_nat (pred k) * stride + line <= Z.of_nat (List.length bytes)) ->
    (r < k)%nat ->
    firstn (Z.to_nat line)
      (skipn (r * Z.to_nat line) (raster_rows_from bytes from stride line k))
    = firstn (Z.to_nat line)
        (skipn (Z.to_nat (from + Z.of_nat r * stride)) bytes).
Proof.
  induction k as [|k IH]; intros from r Hf Hs Hl Hb Hr; [lia|].
  assert (Hb' := Hb ltac:(discriminate)). cbn [pred] in Hb'.
  assert (Hks : 0 <= Z.of_nat k * stride)
    by (apply Z.mul_nonneg_nonneg; lia).
  rewrite raster_rows_from_S.
  set (row := firstn (Z.to_nat line) (skipn (Z.to_nat from) bytes)).
  assert (Hrow : List.length row = Z.to_nat line).
  { subst row. rewrite length_firstn, length_skipn. lia. }
  destruct r as [|r].
  - cbn [Nat.mul skipn]. rewrite firstn_app, Hrow, Nat.sub_diag, firstn_O.
    rewrite app_nil_r, firstn_all2 by lia.
    subst row. do 3 f_equal. lia.
  - assert (Hnext : k <> O ->
              from + stride + Z.of_nat (pred k) * stride + line
              <= Z.of_nat (List.length bytes)).
    { intros Hk. destruct k as [|k']; [congruence|]. cbn [pred].
      rewrite Nat2Z.inj_succ in Hb'. lia. }
    rewrite skipn_app, Hrow.
    rewrite skipn_all2 by (rewrite Hrow; cbn [Nat.mul]; lia).
    cbn [app].
    replace (S r * Z.to_nat line - Z.to_nat line)%nat
      with (r * Z.to_nat line)%nat by (cbn [Nat.mul]; lia).
    rewrite (IH (from + stride) r ltac:(lia) Hs Hl Hnext ltac:(lia)).
    do 3 f_equal. rewrite Nat2Z.inj_succ. lia.
Qed.

(** C7. When the object is created, sized and mapped, the raster the driver
    holds (rows [stride0] bytes apart, an [int] of at least [width * 4], all
    inside plane 0) is published: the mapped object then holds exactly
    the first [width * 4] bytes of each of the raster's [height] rows, one
    row after the other, so that reading row [r] back at stride [width * 4]
    gives the bytes of row [r] of the raster at its own stride.  The mapping
    is still live when the draw returns. *)
Theorem publish_round_trip (e : env) (f : vo_frame) (v : vo) (img : mp_image)
  (Himg : frame (vo_priv v) = Some img)
  (Hopen : e_shm_open e <> -1)
  (Htrunc : e_ftruncate e <> -1)
  (Hmap : e_mmap e <> MAP_FAILED)
  (Hw : 0 <= width (vo_priv v)) (Hh : 0 <= height (vo_priv v))
  (Hsize : width (vo_priv v) * height (vo_priv v) * 4 <= CInt.int_max)
  (Hstride : width (vo_priv v) * 4 <= stride0 img)
  (Hint : stride0 img <= CInt.int_max)
  (Hplane : stride0 img * height (vo_priv v)
            <= Z.of_nat (List.length (planes0 img))) :
  let w := width (vo_priv v) in
  let h := height (vo_priv v) in
  exists v' region,
    draw_frame_publish e f v = Some v' /\
    shm (os v') = Some region /\
    region = raster_rows (planes0 img) (stride0 img) (w * 4) (Z.to_nat h) /\
    Z.of_nat (List.length region) = w * h * 4 /\
    (forall r, (r < Z.to_nat h)%nat ->
       firstn (Z.to_nat (w * 4)) (skipn (Z.to_nat (Z.of_nat r * (w * 4))) region)
       = firstn (Z.to_nat (w * 4))
           (skipn (Z.to_nat (Z.of_nat r * stride0 img)) (planes0 img))) /\
    buffer (vo_priv v') = e_mmap e /\
    In (e_mmap e, w * h * 4) (maps (os v')) /\
    frame (vo_priv v') = Some img.
Proof.
  cbv zeta.
  set (w := width (vo_priv v)) in *. set (h := height (vo_priv v)) in *.
  assert (Hwh : 0 <= w * h) by (apply Z.mul_nonneg_nonneg; lia).
  assert (Hline : CInt.wrap (CInt.umul w depth) = w * 4).
  { apply line_bytes_exact. lia. }
  assert (Hbytes : CInt.wrap (CInt.umul (CInt.mul w h) depth) = w * h * 4).
  { rewrite byte_count_exact by lia. apply wrap_small.
    unfold CInt.in_range, CInt.int_min, CInt.int_max in *. lia. }
  assert (Hbound : Z.to_nat h <> O ->
            0 + Z.of_nat (pred (Z.to_nat h)) * stride0 img + w * 4
            <= Z.of_nat (List.length (planes0 img))).
  { intros Hk. rewrite Nat2Z.inj_pred by lia. rewrite Z2Nat.id by lia. nia. }
  assert (Hst0 : 0 <= stride0 img) by lia.
  assert (Hrows :
    forall old,
      memcpy_pic (resize (Z.to_nat (w * h * 4)) old) (planes0 img)
        (w * 4) h (w * 4) (stride0 img)
      = Some (raster_rows (planes0 img) (stride0 img) (w * 4) (Z.to_nat h))).
  { intros old. unfold memcpy_pic.
    assert (Hdst : 0 + Z.of_nat (Z.to_nat h) * (w * 4)
                   <= Z.of_nat (List.length
                                  (resize (Z.to_nat (w * h * 4)) old)))
      by (rewrite resize_length; nia).
    rewrite (memcpy_pic_rows_spec (planes0 img) (w * 4) (stride0 img)
               (Z.to_nat h) _ 0 0
               ltac:(lia) ltac:(lia) ltac:(lia) Hst0 Hdst Hbound).
    cbn [Z.to_nat firstn app].
    rewrite skipn_all2, app_nil_r; [reflexivity|].
    rewrite resize_length. nia. }
  assert (Hlen : Z.of_nat (List.length
                   (raster_rows (planes0 img) (stride0 img) (w * 4)
                      (Z.to_nat h))) = w * h * 4).
  { unfold raster_rows.
    rewrite (raster_rows_from_length (planes0 img) (stride0 img) (w * 4)
               (Z.to_nat h) 0 ltac:(lia) Hst0 ltac:(lia) Hbound).
    nia. }
  assert (Hrd : forall r, (r < Z.to_nat h)%nat ->
     firstn (Z.to_nat (w * 4))
       (skipn (Z.to_nat (Z.of_nat r * (w * 4)))
          (raster_rows (planes0 img) (stride0 img) (w * 4) (Z.to_nat h)))
     = firstn (Z.to_nat (w * 4))
         (skipn (Z.to_nat (Z.of_nat r * stride0 img)) (planes0 img))).
  { intros r Hr. unfold raster_rows.
    replace (Z.to_nat (Z.of_nat r * (w * 4)))
      with (r * Z.to_nat (w * 4))%nat by nia.
    rewrite (raster_rows_from_row (planes0 img) (stride0 img) (w * 4)
               (Z.to_nat h) 0 r ltac:(lia) Hst0 ltac:(lia) Hbound Hr).
    reflexivity. }
  unfold draw_frame_publish, sys_shm_open, sys_ftruncate, sys_mmap. cbn.
  fold w h. rewrite Hline, Hbytes.
  destruct (Z.eqb_spec (e_shm_open e) (-1)) as [|_]; [contradiction|].
  destruct (Z.eqb_spec (e_ftruncate e) (-1)) as [|_]; [contradiction|].
  destruct (Z.eqb_spec (e_mmap e) MAP_FAILED) as [|_]; [contradiction|].
  cbn. rewrite Himg, Hrows.
  destruct (current f); eexists _, _;
    (split; [reflexivity|]); cbn;
    (split; [reflexivity|]);
    (split; [reflexivity|]);
    (split; [exact Hlen|]);
    (split; [exact Hrd|]);
    (split; [reflexivity|]);
    (split; [left; reflexivity|]); exact Himg.
Qed.

(** The first frame of the concrete run: 4 rows of 32 bytes taken from a
    raster whose rows are 64 bytes apart. *)
Lemma publish_round_trip_witness :
  draw_frame_publish env0 new_frame vo_composited = Some vo_drawn /\
  shm (os vo_drawn)
    = Some (raster_rows (planes0 raster_composited) 64 (8 * 4) (Z.to_nat 4)) /\
  buffer (vo_priv vo_drawn) = 4096.
Proof.
  assert (Himg : frame (vo_priv vo_composited) = Some raster_composited)
    by (vm_compute; reflexivity).
  assert (Wv : width (vo_priv vo_composited) = 8) by (vm_compute; reflexivity).
  assert (Hv : height (vo_priv vo_composited) = 4) by (vm_compute; reflexivity).
  assert (Sv : stride0 raster_composited = 64) by (vm_compute; reflexivity).
  assert (Lv : Z.of_nat (List.length (planes0 raster_composited)) = 256)
    by (vm_compute; reflexivity).
  assert (N1 : e_shm_open env0 <> -1) by (vm_compute; discriminate).
  assert (N2 : e_ftruncate env0 <> -1) by (vm_compute; discriminate).
  assert (N3 : e_mmap env0 <> MAP_FAILED) by (vm_compute; discriminate).
  assert (Mv : e_mmap env0 = 4096) by reflexivity.
  pose proof (publish_round_trip env0 new_frame vo_composited
                raster_composited Himg N1 N2 N3) as H.
  rewrite Wv, Hv, Sv, Lv, Mv in H. unfold CInt.int_max in H.
  destruct (H ltac:(lia) ltac:(lia) ltac:(lia) ltac:(lia) ltac:(lia)
              ltac:(lia))
    as (v' & region & E & Hs & Hr & _ & _ & Hb & _).
  assert (E' : draw_frame_publish env0 new_frame vo_composited = Some vo_drawn)
    by (vm_compute; reflexivity).
  rewrite E' in E. inversion E; subst v'. subst region.
  split; [exact E'|]. split; [exact Hs|]. exact Hb.
Defined.

(** ** A draw whose transfer fails *)

(** After a failed publish the driver still presents: whatever step failed,
    the skip mark is clear when [draw_frame] returns, so [flip_page] writes
    the transfer command although no mapping was added for this frame. *)
Lemma flip_page_after_failed_publish (e : env) (f : vo_frame) (v v' : vo) :
  draw_frame_publish e f v = Some v' ->
  e_shm_open e = -1 \/ e_ftruncate e = -1 \/ e_mmap e = MAP_FAILED ->
  canvas_ok (vo_priv v) = true ->
  skip_frame_draw (vo_priv v) = false ->
  maps (os v') = maps (os v) /\
  In (Printf (kitty_transfer (width (vo_priv v)) (height (vo_priv v))
                SHM_NAME_BASE64))
     (new_events v' (flip_page v')).
Proof.
  intros E Hfail Hok Hskip.
  assert (Hsame : maps (os v') = maps (os v) /\
                  canvas_ok (vo_priv v') = true /\
                  skip_frame_draw (vo_priv v') = false /\
                  width (vo_priv v') = width (vo_priv v) /\
                  height (vo_priv v') = height (vo_priv v)).
  { revert E. unfold draw_frame_publish, sys_shm_open, sys_ftruncate, sys_mmap.
    cbn.
    destruct (Z.eqb_spec (e_shm_open e) (-1)) as [E1|E1].
    { intros E; inversion E; subst; cbn. auto. }
    destruct (Z.eqb_spec (e_ftruncate e) (-1)) as [E2|E2].
    { intros E; inversion E; subst; cbn. auto. }
    destruct (Z.eqb_spec (e_mmap e) MAP_FAILED) as [E3|E3].
    { intros E; inversion E; subst; cbn. auto. }
    destruct Hfail as [? | [? | ?]]; contradiction. }
  destruct Hsame as (Hm & Hok' & Hskip' & Hw & Hh).
  split; [exact Hm|].
  destruct (flip_page_trace_shape v' Hok' Hskip') as [evs Hev].
  rewrite (new_events_app _ _ _ Hev), Hw, Hh.
  right. left. reflexivity.
Qed.

(** C1, evaluated where [ftruncate] fails and where [mmap] fails on the
    ready driver.  The failing draw logs its warning, unlinks the name and
    closes descriptor 3, and the process holds no descriptor and no mapping
    afterwards.  But it returns with [mmap_fd] still 3 (and, when [mmap]
    failed, [buffer] equal to [MAP_FAILED]), with the reference it took on
    the host's picture unfreed and with the skip mark clear: to
    [dealloc_buffers] the driver still owns a descriptor, which it closes a
    second time, and a mapping at [MAP_FAILED], which it unmaps. *)
Theorem failed_publish_leaves_stale_state :
  draw_frame scale0 clear0 osd0 env_ftruncate_fails new_frame vo_ready
    = Some vo_truncate_failed /\
  new_events vo_ready vo_truncate_failed =
    [ Image_new_ref; Sws_scale (mk_rect 0 0 8 4);
      Osd_draw (mk_osd_res 8 4) 0;
      Shm_open SHM_NAME 3; Ftruncate 3 128 (-1);
      MP_WARN "Failed to truncate SHM object";
      Shm_unlink SHM_NAME; Close 3 ] /\
  fds (os vo_truncate_failed) = [] /\
  maps (os vo_truncate_failed) = [] /\
  mmap_fd (vo_priv vo_truncate_failed) = 3 /\
  mmap_fd (vo_priv vo_ready) = -1 /\
  refs (os vo_truncate_failed) = 1%nat /\
  refs (os vo_drawn) = 0%nat /\
  skip_frame_draw (vo_priv vo_truncate_failed) = false /\
  new_events vo_truncate_failed (dealloc_buffers vo_truncate_failed)
    = [Close 3; Talloc_free] /\
  draw_frame scale0 clear0 osd0 env_mmap_fails new_frame vo_ready
    = Some vo_mmap_failed /\
  fds (os vo_mmap_failed) = [] /\
  maps (os vo_mmap_failed) = [] /\
  mmap_fd (vo_priv vo_mmap_failed) = 3 /\
  buffer (vo_priv vo_mmap_failed) = MAP_FAILED /\
  new_events vo_mmap_failed (dealloc_buffers vo_mmap_failed)
    = [Munmap MAP_FAILED 128; Close 3; Talloc_free].
Proof.
  assert (E1 : draw_frame scale0 clear0 osd0 env_ftruncate_fails new_frame
                 vo_ready = Some vo_truncate_failed)
    by (vm_compute; reflexivity).
  assert (E2 : draw_frame scale0 clear0 osd0 env_mmap_fails new_frame
                 vo_ready = Some vo_mmap_failed)
    by (vm_compute; reflexivity).
  split; [exact E1|].
  do 9 (split; [vm_compute; reflexivity|]).
  split; [exact E2|].
  do 4 (split; [vm_compute; reflexivity|]).
  vm_compute; reflexivity.
Qed.

(** C2, evaluated where [shm_open], [ftruncate] and [mmap] fail on the ready
    driver.  In each case nothing is mapped and no object has the name when
    [draw_frame] returns, and the [flip_page] that follows still moves the
    cursor and writes the transfer command naming the object, then unmaps
    and closes what the stale fields hold. *)
Theorem failed_publish_is_presented :
  draw_frame scale0 clear0 osd0 env_shm_open_fails new_frame vo_ready
    = Some vo_open_failed /\
  new_events vo_ready vo_open_failed =
    [ Image_new_ref; Sws_scale (mk_rect 0 0 8 4);
      Osd_draw (mk_osd_res 8 4) 0;
      Shm_open SHM_NAME (-1); MP_WARN "Failed to create SHM object" ] /\
  shm (os vo_open_failed) = None /\
  maps (os vo_open_failed) = [] /\
  new_events vo_open_failed (flip_page vo_open_failed) =
    [ Printf (ESC_GOTOXY 12 40);
      Printf (kitty_transfer 8 4 SHM_NAME_BASE64);
      Fflush; Munmap NULL 128; Close (-1) ] /\
  maps (os vo_truncate_failed) = [] /\
  shm (os vo_truncate_failed) = None /\
  new_events vo_truncate_failed (flip_page vo_truncate_failed) =
    [ Printf (ESC_GOTOXY 12 40);
      Printf (kitty_transfer 8 4 SHM_NAME_BASE64);
      Fflush; Munmap NULL 128; Close 3 ] /\
  maps (os vo_mmap_failed) = [] /\
  shm (os vo_mmap_failed) = None /\
  new_events vo_mmap_failed (flip_page vo_mmap_failed) =
    [ Printf (ESC_GOTOXY 12 40);
      Printf (kitty_transfer 8 4 SHM_NAME_BASE64);
      Fflush; Munmap MAP_FAILED 128; Close 3 ].
Proof.
  do 10 (split; [vm_compute; reflexivity|]).
  vm_compute; reflexivity.
Qed.

(** * Further properties of the driver *)

(** ** Releasing the buffers *)

Lemma dealloc_buffers_noop (v : vo) :
  buffer (vo_priv v) = NULL -> mmap_fd (vo_priv v) = -1 ->
  frame (vo_priv v) = None ->
  dealloc_buffers v = v.
Proof.
  intros Hb Hf Hr. unfold dealloc_buffers.
  rewrite Hb. cbn. rewrite Hf. cbn. rewrite Hr. reflexivity.
Qed.

Lemma dealloc_buffers_fields (v : vo) :
  buffer (vo_priv (dealloc_buffers v)) = NULL /\
  mmap_fd (vo_priv (dealloc_buffers v)) = -1 /\
  frame (vo_priv (dealloc_buffers v)) = None.
Proof.
  unfold dealloc_buffers.
  destruct (Z.eqb_spec (buffer (vo_priv v)) NULL) as [Hb | Hb];
    cbn [negb];
    destruct (Z.eqb_spec (mmap_fd (vo_priv v)) (-1)) as [Hf | Hf];
    cbn;
    try (destruct (Z.eqb_spec (mmap_fd (vo_priv v)) (-1)) as [Hf' | Hf'];
         [try contradiction | try contradiction]);
    cbn; destruct (frame (vo_priv v)) eqn:Hr; cbn; auto.
Qed.

Lemma dealloc_buffers_shape (v : vo) :
  (buffer (vo_priv v) <> NULL ->
   maps (os (dealloc_buffers v))
   = filter (fun m => negb (fst m =? buffer (vo_priv v))) (maps (os v))) /\
  (buffer (vo_priv v) = NULL ->
   maps (os (dealloc_buffers v)) = maps (os v)) /\
  (mmap_fd (vo_priv v) <> -1 ->
   fds (os (dealloc_buffers v))
   = filter (fun d => negb (d =? mmap_fd (vo_priv v))) (fds (os v))) /\
  (mmap_fd (vo_priv v) = -1 ->
   fds (os (dealloc_buffers v)) = fds (os v)) /\
  shm (os (dealloc_buffers v)) = shm (os v) /\
  refs (os (dealloc_buffers v)) = refs (os v).
Proof.
  unfold dealloc_buffers.
  destruct (Z.eqb_spec (buffer (vo_priv v)) NULL) as [Eb | Eb];
    cbn [negb]; cbn;
    destruct (Z.eqb_spec (mmap_fd (vo_priv v)) (-1)) as [Ef | Ef];
    cbn; destruct (frame (vo_priv v)); cbn;
    repeat split; intros; try reflexivity; contradiction.
Qed.

(** X1. After [dealloc_buffers] the driver records no buffer, no descriptor and
    no raster.  A recorded buffer is handed to [munmap] with the byte count
    of the image size the driver has at that moment; it is no longer mapped
    afterwards when that is the length it was mapped with and not zero, which
    is when the kernel takes the whole mapping away.  A recorded descriptor
    is no longer open.  Where no buffer, respectively no descriptor, was
    recorded, the process's mappings, respectively descriptors, are left as
    they were.  The named object is not removed, and calling it again changes
    nothing and makes no call. *)
Theorem dealloc_buffers_releases (v : vo) :
  let v' := dealloc_buffers v in
  let len :=
    CInt.umul (CInt.mul (width (vo_priv v)) (height (vo_priv v))) depth in
  buffer (vo_priv v') = NULL /\
  mmap_fd (vo_priv v') = -1 /\
  frame (vo_priv v') = None /\
  (buffer (vo_priv v) <> NULL ->
   (exists rest, new_events v v' = Munmap (buffer (vo_priv v)) len :: rest) /\
   ((forall l, In (buffer (vo_priv v), l) (maps (os v)) -> l = len /\ 0 < len) ->
    forall l, ~ In (buffer (vo_priv v), l) (maps (os v')))) /\
  (buffer (vo_priv v) = NULL -> maps (os v') = maps (os v)) /\
  (mmap_fd (vo_priv v) <> -1 -> ~ In (mmap_fd (vo_priv v)) (fds (os v'))) /\
  (mmap_fd (vo_priv v) = -1 -> fds (os v') = fds (os v)) /\
  shm (os v') = shm (os v) /\
  dealloc_buffers v' = v'.
Proof.
  cbv zeta.
  destruct (dealloc_buffers_fields v) as (Hb & Hf & Hr).
  split; [exact Hb|]. split; [exact Hf|]. split; [exact Hr|].
  destruct (dealloc_buffers_shape v) as (M1 & M2 & F1 & F2 & S & _).
  split; [|split; [|split; [|split; [|split]]]].
  - intros Hn. split.
    + unfold dealloc_buffers.
      destruct (Z.eqb_spec (buffer (vo_priv v)) NULL) as [|_];
        [contradiction|].
      cbn [negb]. cbn.
      destruct (negb (mmap_fd (vo_priv v) =? -1)); cbn;
        destruct (frame (vo_priv v)); cbn;
        eexists; apply new_events_app; cbn;
        repeat rewrite <- app_assoc; reflexivity.
    + intros _ l. rewrite (M1 Hn). apply filter_not_in_map.
  - exact M2.
  - intros Hn. rewrite (F1 Hn). apply filter_not_in_fd.
  - exact F2.
  - exact S.
  - apply dealloc_buffers_noop; assumption.
Qed.

(** The driver after its first draw holds the 128 bytes of an 8x4 image
    mapped at 4096 and descriptor 3; both are given back. *)
Lemma dealloc_buffers_releases_witness :
  buffer (vo_priv vo_drawn) = 4096 /\
  maps (os vo_drawn) = [(4096, 128)] /\
  (exists rest,
     new_events vo_drawn (dealloc_buffers vo_drawn) = Munmap 4096 128 :: rest) /\
  (forall l, ~ In (4096, l) (maps (os (dealloc_buffers vo_drawn)))) /\
  ~ In 3 (fds (os (dealloc_buffers vo_drawn))).
Proof.
  assert (Hb : buffer (vo_priv vo_drawn) = 4096) by (vm_compute; reflexivity).
  assert (Hm : maps (os vo_drawn) = [(4096, 128)]) by (vm_compute; reflexivity).
  assert (Hf : mmap_fd (vo_priv vo_drawn) = 3) by (vm_compute; reflexivity).
  assert (Hl : CInt.umul (CInt.mul (width (vo_priv vo_drawn))
                                   (height (vo_priv vo_drawn))) depth = 128)
    by (vm_compute; reflexivity).
  pose proof (dealloc_buffers_releases vo_drawn) as H. cbv zeta in H.
  rewrite Hb, Hm, Hf, Hl in H.
  destruct H as (_ & _ & _ & Hbuf & _ & Hfd & _).
  destruct (Hbuf ltac:(discriminate)) as (Hcall & Hgone).
  split; [reflexivity|]. split; [reflexivity|]. split; [exact Hcall|].
  split.
  - apply Hgone. intros l [E|[]]. inversion E. split; [reflexivity|lia].
  - apply Hfd. discriminate.
Defined.

(** ** What each step of a draw holds and writes *)

Lemma release_not_stdout (evs : list event) :
  forallb is_release evs = true -> filter is_stdout evs = [].
Proof.
  induction evs as [|ev evs IH]; [reflexivity|].
  cbn. intros H. apply andb_prop in H. destruct H as [Hev Hrest].
  destruct ev; try discriminate; cbn; apply IH; exact Hrest.
Qed.

Lemma dealloc_buffers_events (v : vo) :
  exists rel,
    trace (os (dealloc_buffers v)) = trace (os v) ++ rel /\
    forallb is_release rel = true.
Proof.
  unfold dealloc_buffers.
  repeat break_branch; cbn; repeat rewrite <- app_assoc; cbn;
    try (eexists; split; [reflexivity|reflexivity]).
  exists []. split; [now rewrite app_nil_r|reflexivity].
Qed.

(** [update_params] first gives back what the driver held, then allocates,
    and reinitialises the scaler only when the allocation succeeded. *)
Lemma update_params_events (e : env) (par : mp_image_params) (v : vo) :
  exists rel tail,
    trace (os (snd (update_params e par v)))
    = trace (os v) ++ rel
        ++ Image_alloc (width (vo_priv v)) (height (vo_priv v)) :: tail /\
    forallb is_release rel = true /\
    (e_alloc e = None -> tail = []) /\
    (e_alloc e <> None ->
     exists ctx, tail = [Sws_reinit ctx (e_sws_reinit e)]).
Proof.
  unfold update_params.
  set (v0 := with_priv _ v).
  destruct (dealloc_buffers_events v0) as (rel & H & Hrel).
  destruct (dealloc_buffers_size v0) as [Hw Hh].
  change (trace (os v0)) with (trace (os v)) in H.
  change (width (vo_priv v0)) with (width (vo_priv v)) in Hw.
  change (height (vo_priv v0)) with (height (vo_priv v)) in Hh.
  clearbody v0. cbn. rewrite Hw, Hh. unfold mp_image_alloc.
  destruct (e_alloc e) as [[stride bytes]|]; cbn.
  - exists rel. eexists. split; [|split; [exact Hrel|split]].
    + destruct (e_sws_reinit e <? 0); cbn; rewrite H;
        repeat rewrite <- app_assoc; reflexivity.
    + discriminate.
    + intros _. eexists. reflexivity.
  - exists rel, []. split; [|split; [exact Hrel|split]].
    + rewrite H. repeat rewrite <- app_assoc. reflexivity.
    + reflexivity.
    + intros X. contradiction.
Qed.

Lemma update_params_held (e : env) (par : mp_image_params) (v : vo) :
  clean v -> clean (snd (update_params e par v)).
Proof.
  unfold clean. intros (Hb & Hf & Hfds & Hmaps). unfold update_params.
  set (v0 := with_priv _ v).
  destruct (dealloc_buffers_fields v0) as (Hb' & Hf' & _).
  destruct (dealloc_buffers_shape v0) as (_ & M & _ & F & _).
  change (buffer (vo_priv v0)) with (buffer (vo_priv v)) in M.
  change (mmap_fd (vo_priv v0)) with (mmap_fd (vo_priv v)) in F.
  change (maps (os v0)) with (maps (os v)) in M.
  change (fds (os v0)) with (fds (os v)) in F.
  specialize (M Hb). specialize (F Hf).
  set (v1 := dealloc_buffers v0) in *. clearbody v1. cbn.
  destruct (mp_image_alloc e _ _); cbn;
    [destruct (e_sws_reinit e <? 0); cbn|];
    rewrite Hb', Hf', M, F, Hfds, Hmaps; auto.
Qed.

Section DrawSteps.

Variable mp_sws_scale :
  mp_sws_context -> mp_image -> src_image -> mp_rect -> list byte.
Variable mp_image_clear : mp_image -> Z -> Z -> Z -> Z -> list byte.
Variable osd_draw_on_image : mp_osd_res -> Z -> mp_image -> list byte.

(** The two ways a draw returns: skipped after the canvas was resolved (and
    the driver reconfigured if it changed), or composited and published. *)
Lemma draw_frame_cases (e : env) (f : vo_frame) (v v' : vo) :
  draw_frame mp_sws_scale mp_image_clear osd_draw_on_image e f v = Some v' ->
  let v1 := update_canvas_dimensions e v in
  let resized :=
    negb (dwidth v =? dwidth v1) || negb (dheight v =? dheight v1) in
  let v2 :=
    if resized then
      with_os (emit (Printf ESC_CLEAR_SCREEN))
        (snd (update_params e (params v1) (set_output_parameters e v1)))
    else v1 in
  (repeat f && negb (redraw f) && negb resized = true /\
   v' = with_priv (set_skip_frame_draw true) v2) \/
  (repeat f && negb (redraw f) && negb resized = false /\
   exists v3,
     draw_frame_composite mp_sws_scale mp_image_clear osd_draw_on_image f
       (with_priv (set_skip_frame_draw false) v2) = Some v3 /\
     draw_frame_publish e f v3 = Some v').
Proof.
  cbv zeta. unfold draw_frame.
  destruct (update_canvas_dimensions_positive e v) as (_ & _ & Hok).
  rewrite Hok. cbn [negb].
  destruct (repeat f && negb (redraw f) && _) eqn:Hc; intros E.
  - left. split; [reflexivity|]. inversion E. reflexivity.
  - right. split; [reflexivity|].
    destruct (draw_frame_composite _ _ _ f _) as [v3|] eqn:E3;
      [|discriminate].
    exists v3. split; [reflexivity | exact E].
Qed.

(** Compositing writes the raster and nothing else of the driver; it holds
    and gives back nothing of the process and writes nothing to the
    terminal. *)
Lemma draw_frame_composite_effect (f : vo_frame) (v v' : vo) :
  draw_frame_composite mp_sws_scale mp_image_clear osd_draw_on_image f v
    = Some v' ->
  fds (os v') = fds (os v) /\ maps (os v') = maps (os v) /\
  shm (os v') = shm (os v) /\
  buffer (vo_priv v') = buffer (vo_priv v) /\
  mmap_fd (vo_priv v') = mmap_fd (vo_priv v) /\
  skip_frame_draw (vo_priv v') = skip_frame_draw (vo_priv v) /\
  options v' = options v /\
  width (vo_priv v') = width (vo_priv v) /\
  height (vo_priv v') = height (vo_priv v) /\
  dst_rect (vo_priv v') = dst_rect (vo_priv v) /\
  (exists img img',
     frame (vo_priv v) = Some img /\ frame (vo_priv v') = Some img' /\
     im_w img' = im_w img /\ im_h img' = im_h img /\
     stride0 img' = stride0 img) /\
  exists evs,
    trace (os v') = trace (os v) ++ evs /\ filter is_stdout evs = [].
Proof.
  unfold draw_frame_composite. intros E.
  destruct (frame (vo_priv v)) as [img|]; [|discriminate].
  destruct (current f) as [mpi|]; inversion E; subst; clear E; cbn;
    repeat (split; [reflexivity|]);
    (split; [eexists _, _; repeat split; reflexivity|]).
  - eexists [_; _; _]. split;
      [repeat rewrite <- app_assoc; reflexivity | reflexivity].
  - eexists [_; _]. split;
      [repeat rewrite <- app_assoc; reflexivity | reflexivity].
Qed.

End DrawSteps.

(** Publishing changes the two transfer fields of the driver and nothing
    else of it, and writes nothing to the terminal.  What the process
    holds afterwards depends on the step that failed, if any. *)
Lemma draw_frame_publish_effect (e : env) (f : vo_frame) (v v' : vo) :
  draw_frame_publish e f v = Some v' ->
  skip_frame_draw (vo_priv v') = skip_frame_draw (vo_priv v) /\
  options v' = options v /\
  width (vo_priv v') = width (vo_priv v) /\
  height (vo_priv v') = height (vo_priv v) /\
  dst_rect (vo_priv v') = dst_rect (vo_priv v) /\
  frame (vo_priv v') = frame (vo_priv v) /\
  mmap_fd (vo_priv v') = e_shm_open e /\
  (exists evs,
     trace (os v') = trace (os v) ++ evs /\ filter is_stdout evs = []) /\
  ((e_shm_open e = -1 /\
    fds (os v') = fds (os v) /\ maps (os v') = maps (os v) /\
    shm (os v') = shm (os v) /\
    buffer (vo_priv v') = buffer (vo_priv v)) \/
   (e_shm_open e <> -1 /\
    (e_ftruncate e = -1 \/ e_mmap e = MAP_FAILED) /\
    fds (os v')
    = filter (fun d => negb (d =? e_shm_open e)) (e_shm_open e :: fds (os v)) /\
    maps (os v') = maps (os v) /\
    shm (os v') = None /\
    (buffer (vo_priv v') = buffer (vo_priv v) \/
     buffer (vo_priv v') = MAP_FAILED)) \/
   (e_shm_open e <> -1 /\ e_ftruncate e <> -1 /\ e_mmap e <> MAP_FAILED /\
    fds (os v') = e_shm_open e :: fds (os v) /\
    (exists len, maps (os v') = (e_mmap e, len) :: maps (os v)) /\
    buffer (vo_priv v') = e_mmap e)).
Proof.
  unfold draw_frame_publish, sys_shm_open, sys_ftruncate, sys_mmap.
  cbn. intros E.
  destruct (Z.eqb_spec (e_shm_open e) (-1)) as [E1|E1].
  { inversion E; subst; clear E. cbn.
    repeat (split; [reflexivity|]). split.
    - eexists [_; _]. split;
        [repeat rewrite <- app_assoc; reflexivity | reflexivity].
    - left. repeat split; try reflexivity. exact E1. }
  destruct (Z.eqb_spec (e_ftruncate e) (-1)) as [E2|E2].
  { inversion E; subst; clear E. cbn.
    repeat (split; [reflexivity|]). split.
    - eexists [_; _; _; _; _]. split;
        [repeat rewrite <- app_assoc; reflexivity | reflexivity].
    - right. left. split; [exact E1|]. split; [left; exact E2|].
      repeat split; try reflexivity. left. reflexivity. }
  destruct (Z.eqb_spec (e_mmap e) MAP_FAILED) as [E3|E3].
  { inversion E; subst; clear E. cbn.
    repeat (split; [reflexivity|]). split.
    - eexists [_; _; _; _; _; _]. split;
        [repeat rewrite <- app_assoc; reflexivity | reflexivity].
    - right. left. split; [exact E1|]. split; [right; exact E3|].
      repeat split; try reflexivity. right. exact E3. }
  cbn in E.
  destruct (frame (vo_priv v)) as [img|] eqn:Hfr; [|discriminate].
  destruct (memcpy_pic _ _ _ _ _ _) as [region'|]; [|discriminate].
  destruct (current f); inversion E; subst; clear E; cbn;
    repeat (split; [reflexivity|]);
    (split; [exact Hfr|]); (split; [reflexivity|]).
  - split.
    + eexists [_; _; _; _; _]. split;
        [repeat rewrite <- app_assoc; reflexivity | reflexivity].
    + right. right. repeat split; try assumption. eexists. reflexivity.
  - split.
    + eexists [_; _; _; _]. split;
        [repeat rewrite <- app_assoc; reflexivity | reflexivity].
    + right. right. repeat split; try assumption. eexists. reflexivity.
Qed.

(** ** One transfer at a time *)

Lemma update_canvas_dimensions_held (e : env) (v : vo) :
  clean v -> clean (update_canvas_dimensions e v).
Proof.
  unfold clean.
  destruct (update_canvas_dimensions_frame e v) as (Hos & _ & _ & Hp).
  rewrite Hos, Hp. cbn. auto.
Qed.

Lemma set_output_parameters_held (e : env) (v : vo) :
  clean v -> clean (set_output_parameters e v).
Proof.
  unfold clean, set_output_parameters.
  destruct (e_rects e) as [[src dst] o]. cbn. auto.
Qed.

Section TransferCycle.

Variable mp_sws_scale :
  mp_sws_context -> mp_image -> src_image -> mp_rect -> list byte.
Variable mp_image_clear : mp_image -> Z -> Z -> Z -> Z -> list byte.
Variable osd_draw_on_image : mp_osd_res -> Z -> mp_image -> list byte.

(** What a draw on a driver with no outstanding transfer leaves: nothing
    when it skipped; otherwise at most the descriptor and the mapping it
    records. *)
Lemma draw_frame_held (e : env) (f : vo_frame) (v v' : vo) :
  clean v ->
  draw_frame mp_sws_scale mp_image_clear osd_draw_on_image e f v = Some v' ->
  canvas_ok (vo_priv v') = true /\
  ((skip_frame_draw (vo_priv v') = true /\ clean v') \/
   (skip_frame_draw (vo_priv v') = false /\
    (fds (os v') = [] \/
     (fds (os v') = [mmap_fd (vo_priv v')] /\ mmap_fd (vo_priv v') <> -1)) /\
    (maps (os v') = [] \/
     ((exists len, maps (os v') = [(buffer (vo_priv v'), len)]) /\
      buffer (vo_priv v') = e_mmap e)))).
Proof.
  intros Hclean E.
  assert (Hok : canvas_ok (vo_priv v') = true).
  { pose proof (draw_frame_canvas _ _ _ e f v v' E) as Hc.
    destruct (update_canvas_dimensions_positive e v) as (_ & _ & Hpos).
    unfold canvas in Hc. injection Hc as _ _ Hk. rewrite Hk. exact Hpos. }
  split; [exact Hok|].
  pose proof (draw_frame_cases _ _ _ e f v v' E) as C. cbv zeta in C.
  set (v1 := update_canvas_dimensions e v) in *.
  assert (H1 : clean v1) by (apply update_canvas_dimensions_held; exact Hclean).
  set (resized := negb (dwidth v =? dwidth v1)
                  || negb (dheight v =? dheight v1)) in *.
  set (v2 := if resized
             then with_os (emit (Printf ESC_CLEAR_SCREEN))
                    (snd (update_params e (params v1)
                            (set_output_parameters e v1)))
             else v1) in *.
  assert (H2 : clean v2).
  { subst v2. destruct resized; [|exact H1].
    pose proof (update_params_held e (params v1) _
                  (set_output_parameters_held e v1 H1)) as H3.
    unfold clean in *. cbn. exact H3. }
  clearbody v2. clear H1 Hclean.
  destruct C as [[_ ->] | (_ & v3 & Ec & Ep)].
  - left. split; [reflexivity|]. unfold clean in *. cbn. exact H2.
  - right.
    destruct (draw_frame_composite_effect _ _ _ f _ v3 Ec)
      as (Cf & Cm & _ & Cb & Cd & Cs & _).
    cbn in Cf, Cm, Cb, Cd, Cs.
    destruct H2 as (Hb & Hfd & Hfds & Hmaps).
    rewrite Hfds in Cf. rewrite Hmaps in Cm.
    destruct (draw_frame_publish_effect e f v3 v' Ep)
      as (Ps & _ & _ & _ & _ & _ & Pfd & _ & P).
    split; [congruence|].
    destruct P as [(F1 & Pf & Pm & _ & _)
                  | [(F1 & _ & Pf & Pm & _ & _)
                    | (F1 & _ & _ & Pf & (len & Pm) & Pb)]].
    + rewrite Pf, Pm, Cf, Cm. auto.
    + rewrite Pf, Pm, Cf, Cm. cbn. rewrite Z.eqb_refl. cbn. auto.
    + rewrite Pf, Pm, Cf, Cm, Pfd, Pb. split.
      * right. split; [reflexivity | exact F1].
      * right. split; [exists len; reflexivity | reflexivity].
Qed.

Lemma draw_then_flip_clean (e : env) (f : vo_frame) (v v' : vo)
  (Hclean : clean v)
  (Hdraw : draw_frame mp_sws_scale mp_image_clear osd_draw_on_image e f v
           = Some v') :
  clean (flip_page v').
Proof.
  destruct (draw_frame_held e f v v' Hclean Hdraw)
    as (Hok & [(Hs & Hc) | (Hs & Hf & Hm)]).
  - unfold flip_page. rewrite Hok, Hs. exact Hc.
  - unfold clean, flip_page. rewrite Hok, Hs. cbn.
    repeat split.
    + destruct Hf as [-> | [-> _]]; [reflexivity|].
      cbn. rewrite Z.eqb_refl. reflexivity.
    + destruct Hm as [-> | [[len ->] _]]; [reflexivity|].
      cbn. rewrite Z.eqb_refl. reflexivity.
Qed.

(** X2. Playback keeps one transfer at a time: starting with none outstanding,
    after any number of frames each drawn and then presented, whether a draw
    skipped, published or failed at any step, the driver records no buffer
    and no descriptor and the process holds neither. *)
Theorem playback_keeps_clean (frames : list (env * vo_frame)) (v v' : vo)
  (Hclean : clean v)
  (Hrun : run mp_sws_scale mp_image_clear osd_draw_on_image
            (playback frames) v = Some v') :
  clean v'.
Proof.
  revert v Hclean Hrun.
  induction frames as [|[e f] frames IH]; intros v Hclean Hrun.
  - cbn in Hrun. inversion Hrun; subst. exact Hclean.
  - cbn in Hrun.
    destruct (draw_frame _ _ _ e f v) as [v1|] eqn:Ed; [|discriminate].
    apply (IH (flip_page v1)); [|exact Hrun].
    apply (draw_then_flip_clean e f v v1 Hclean Ed).
Qed.

(** X3. Tearing the driver down after a draw that was never presented gives
    back what the draw left: after [uninit] the driver records no buffer, no
    descriptor and no raster and the process holds no descriptor and no
    mapping.  ([mmap] does not answer with the null address.) *)
Theorem uninit_after_draw (e : env) (f : vo_frame) (v v' : vo)
  (Hclean : clean v)
  (Hdraw : draw_frame mp_sws_scale mp_image_clear osd_draw_on_image e f v
           = Some v')
  (Hmmap : e_mmap e <> NULL) :
  clean (uninit v') /\ frame (vo_priv (uninit v')) = None.
Proof.
  unfold uninit.
  set (u := with_os (emit Fflush) _).
  assert (Hu : fds (os u) = fds (os v') /\ maps (os u) = maps (os v') /\
               buffer (vo_priv u) = buffer (vo_priv v') /\
               mmap_fd (vo_priv u) = mmap_fd (vo_priv v')).
  { subst u. destruct (negb (opt_clear (vo_priv v') =? 0)); cbn; auto. }
  destruct Hu as (Uf & Um & Ub & Ud). clearbody u.
  destruct (dealloc_buffers_fields u) as (Hb & Hd & Hr).
  destruct (dealloc_buffers_shape u) as (M1 & M2 & F1 & F2 & _).
  split; [|exact Hr].
  unfold clean. split; [exact Hb|]. split; [exact Hd|].
  destruct (draw_frame_held e f v v' Hclean Hdraw)
    as (_ & [(_ & Hc) | (_ & Hf & Hm)]).
  - destruct Hc as (Cb & Cd & Cf & Cm).
    rewrite M2, F2 by congruence. rewrite Uf, Um. auto.
  - split.
    + destruct (Z.eq_dec (mmap_fd (vo_priv u)) (-1)) as [X | X].
      * rewrite (F2 X), Uf.
        destruct Hf as [-> | [_ Hn]]; [reflexivity|]. congruence.
      * rewrite (F1 X), Uf, Ud.
        destruct Hf as [-> | [-> _]]; [reflexivity|].
        cbn. rewrite Z.eqb_refl. reflexivity.
    + destruct (Z.eq_dec (buffer (vo_priv u)) NULL) as [X | X].
      * rewrite (M2 X), Um.
        destruct Hm as [-> | [_ Hn]]; [reflexivity|]. congruence.
      * rewrite (M1 X), Um, Ub.
        destruct Hm as [-> | [[len ->] _]]; [reflexivity|].
        cbn. rewrite Z.eqb_refl. reflexivity.
Qed.

End TransferCycle.

Lemma vo_ready_clean : clean vo_ready.
Proof. unfold clean. repeat split; vm_compute; reflexivity. Qed.

(** Three frames of the concrete run: a new one, a repeat, and one whose
    [ftruncate] fails. *)
Lemma playback_keeps_clean_witness :
  exists v',
    run scale0 clear0 osd0
      (playback [(env0, new_frame); (env0, repeated_frame);
                 (env_ftruncate_fails, new_frame)]) vo_ready = Some v' /\
    clean v'.
Proof.
  eexists. split; [vm_compute; reflexivity|].
  apply (playback_keeps_clean scale0 clear0 osd0
           [(env0, new_frame); (env0, repeated_frame);
            (env_ftruncate_fails, new_frame)] vo_ready).
  - exact vo_ready_clean.
  - vm_compute. reflexivity.
Defined.

(** The first frame of the concrete run, drawn and then torn down. *)
Lemma uninit_after_draw_witness :
  clean (uninit vo_drawn) /\ frame (vo_priv (uninit vo_drawn)) = None.
Proof.
  apply (uninit_after_draw scale0 clear0 osd0 env0 new_frame vo_ready).
  - exact vo_ready_clean.
  - vm_compute. reflexivity.
  - vm_compute. discriminate.
Defined.

(** ** Results and terminal output of the callbacks *)

Lemma update_params_result (e : env) (par : mp_image_params) (v : vo) :
  let r := update_params e par v in
  (fst r = 0 <-> e_alloc e <> None /\ 0 <= e_sws_reinit e) /\
  (fst r = -1 <-> e_alloc e = None \/ e_sws_reinit e < 0) /\
  (frame (vo_priv (snd r)) = None <-> e_alloc e = None) /\
  buffer (vo_priv (snd r)) = NULL /\ mmap_fd (vo_priv (snd r)) = -1.
Proof.
  cbv zeta. unfold update_params.
  set (v0 := with_priv _ v).
  destruct (dealloc_buffers_fields v0) as (Hb & Hd & _).
  set (v1 := dealloc_buffers v0) in *. clearbody v1. clear v0.
  cbn. unfold mp_image_alloc.
  destruct (e_alloc e) as [[stride bytes]|]; cbn.
  - destruct (Z.ltb_spec (e_sws_reinit e) 0) as [Hlt | Hge]; cbn;
      repeat split; intros; try assumption; try discriminate; try lia;
      try (intuition (discriminate || lia)).
  - repeat split; intros; try assumption; try discriminate; auto;
      try (intuition congruence).
Qed.

(** X4. [reconfig] answers 0 exactly when the raster was allocated and the
    scaler accepted its parameters, and -1 otherwise; a failed allocation
    leaves the driver without raster and the scaler untouched.  Either way
    the transfer fields are reset, a redraw is requested, and the only thing
    written to the terminal is the clear-screen sequence, last and
    unflushed. *)
Theorem reconfig_result (e : env) (par : mp_image_params) (v : vo) :
  let r := reconfig e par v in
  (fst r = 0 <-> e_alloc e <> None /\ 0 <= e_sws_reinit e) /\
  (fst r = -1 <-> e_alloc e = None \/ e_sws_reinit e < 0) /\
  (frame (vo_priv (snd r)) = None <-> e_alloc e = None) /\
  want_redraw (snd r) = true /\
  buffer (vo_priv (snd r)) = NULL /\ mmap_fd (vo_priv (snd r)) = -1 /\
  exists evs,
    trace (os (snd r)) = trace (os v) ++ evs ++ [Printf ESC_CLEAR_SCREEN] /\
    filter is_stdout evs = [] /\
    (e_alloc e = None -> forall ctx ret, ~ In (Sws_reinit ctx ret) evs).
Proof.
  cbv zeta. unfold reconfig.
  destruct (update_canvas_dimensions_positive e v) as (_ & _ & Hok).
  destruct (update_canvas_dimensions_frame e v) as (Hos & _).
  rewrite Hok.
  set (v0 := set_output_parameters e (update_canvas_dimensions e v)).
  assert (Ht : trace (os v0) = trace (os v)).
  { subst v0. rewrite set_output_parameters_os, Hos. reflexivity. }
  clearbody v0.
  pose proof (update_params_result e par v0) as R. cbv zeta in R.
  destruct (update_params_events e par v0) as (rel & tail & Hev & Hrel & T0 & T1).
  destruct (update_params e par v0) as [ret v2]. cbn in *.
  destruct R as (R0 & R1 & Rf & Rb & Rd).
  repeat (split; [assumption || reflexivity|]).
  exists (rel ++ Image_alloc (width (vo_priv v0)) (height (vo_priv v0)) :: tail).
  split; [|split].
  - rewrite Hev, Ht. repeat rewrite <- app_assoc. reflexivity.
  - rewrite filter_app, (release_not_stdout _ Hrel). cbn.
    destruct (e_alloc e) as [a|].
    + destruct T1 as [ctx ->]; [discriminate|]. reflexivity.
    + rewrite T0 by reflexivity. reflexivity.
  - intros Hnone ctx code Hin. rewrite (T0 Hnone) in Hin.
    apply in_app_or in Hin. destruct Hin as [Hin | [Hin | []]];
      [|discriminate].
    rewrite forallb_forall in Hrel. specialize (Hrel _ Hin). discriminate.
Qed.

Section TerminalOutput.

Variable mp_sws_scale :
  mp_sws_context -> mp_image -> src_image -> mp_rect -> list byte.
Variable mp_image_clear : mp_image -> Z -> Z -> Z -> Z -> list byte.
Variable osd_draw_on_image : mp_osd_res -> Z -> mp_image -> list byte.

(** X5. A draw never flushes, never moves the cursor and never writes a
    transfer command: all it writes to the terminal is the clear-screen
    sequence, once, and only when the canvas it resolved differs from the
    one the driver had. *)
Theorem draw_frame_terminal_output (e : env) (f : vo_frame) (v v' : vo)
  (Hdraw : draw_frame mp_sws_scale mp_image_clear osd_draw_on_image e f v
           = Some v') :
  let v1 := update_canvas_dimensions e v in
  filter is_stdout (new_events v v') =
    if (dwidth v =? dwidth v1) && (dheight v =? dheight v1) then []
    else [Printf ESC_CLEAR_SCREEN].
Proof.
  cbv zeta.
  pose proof (draw_frame_cases _ _ _ e f v v' Hdraw) as C. cbv zeta in C.
  destruct (update_canvas_dimensions_frame e v) as (Hos & _).
  set (v1 := update_canvas_dimensions e v) in *.
  set (same := (dwidth v =? dwidth v1) && (dheight v =? dheight v1)).
  assert (Hres : negb (dwidth v =? dwidth v1) || negb (dheight v =? dheight v1)
                 = negb same)
    by (subst same; rewrite negb_andb; reflexivity).
  rewrite Hres in C. clear Hres.
  set (v2 := if negb same
             then with_os (emit (Printf ESC_CLEAR_SCREEN))
                    (snd (update_params e (params v1)
                            (set_output_parameters e v1)))
             else v1) in *.
  assert (H2 : exists evs,
             trace (os v2) = trace (os v) ++ evs /\
             filter is_stdout evs
             = if same then [] else [Printf ESC_CLEAR_SCREEN]).
  { subst v2. destruct same; cbn [negb].
    - exists []. rewrite Hos, app_nil_r. split; reflexivity.
    - destruct (update_params_events e (params v1)
                  (set_output_parameters e v1))
        as (rel & tail & Hev & Hrel & T0 & T1).
      rewrite set_output_parameters_os, Hos in Hev.
      eexists. split.
      + cbn. rewrite Hev. repeat rewrite <- app_assoc. reflexivity.
      + rewrite filter_app, (release_not_stdout _ Hrel). cbn.
        destruct (e_alloc e) as [a|].
        * destruct T1 as [ctx ->]; [discriminate|]. reflexivity.
        * rewrite T0 by reflexivity. reflexivity. }
  clearbody v2. destruct H2 as (evs2 & Ht2 & Hf2).
  destruct C as [[_ ->] | (_ & v3 & Ec & Ep)].
  - rewrite (new_events_app v _ evs2); [exact Hf2|]. exact Ht2.
  - destruct (draw_frame_composite_effect _ _ _ f _ v3 Ec)
      as (_ & _ & _ & _ & _ & _ & _ & _ & _ & _ & _ & evs3 & Ht3 & Hf3).
    destruct (draw_frame_publish_effect e f v3 v' Ep)
      as (_ & _ & _ & _ & _ & _ & _ & (evs4 & Ht4 & Hf4) & _).
    cbn in Ht3. rewrite Ht2 in Ht3. rewrite Ht3 in Ht4.
    repeat rewrite <- app_assoc in Ht4.
    rewrite (new_events_app v v' _ Ht4).
    rewrite !filter_app, Hf2, Hf3, Hf4, !app_nil_r. reflexivity.
Qed.

End TerminalOutput.

(** The shrunken window of the concrete run: the draw clears the screen and
    writes nothing else; the draw before it, on an unchanged canvas, wrote
    nothing at all. *)
Lemma draw_frame_terminal_output_witness :
  filter is_stdout (new_events vo_presented vo_resized)
    = [Printf ESC_CLEAR_SCREEN] /\
  filter is_stdout (new_events vo_ready vo_drawn) = [].
Proof.
  split.
  - assert (E : draw_frame scale0 clear0 osd0 env_resized repeated_frame
                  vo_presented = Some vo_resized)
      by (vm_compute; reflexivity).
    rewrite (draw_frame_terminal_output scale0 clear0 osd0 env_resized
               repeated_frame vo_presented vo_resized E).
    vm_compute. reflexivity.
  - assert (E : draw_frame scale0 clear0 osd0 env0 new_frame vo_ready
                = Some vo_drawn)
      by (vm_compute; reflexivity).
    rewrite (draw_frame_terminal_output scale0 clear0 osd0 env0 new_frame
               vo_ready vo_drawn E).
    vm_compute. reflexivity.
Defined.

(** X6. [uninit] shows the cursor again, then, when the exit-clear option is
    set, clears the screen and homes the cursor, then flushes; whatever it
    calls after the flush only gives something back. *)
Theorem uninit_restores_terminal (v : vo) :
  exists rel,
    trace (os (uninit v)) =
      trace (os v)
        ++ Printf ESC_RESTORE_CURSOR
        :: (if opt_clear (vo_priv v) =? 0 then []
            else [Printf ESC_CLEAR_SCREEN; Printf (ESC_GOTOXY 1 1)])
        ++ Fflush :: rel /\
    forallb is_release rel = true.
Proof.
  unfold uninit.
  set (u := with_os (emit Fflush) _).
  destruct (dealloc_buffers_events u) as (rel & Hev & Hrel).
  exists rel. split; [|exact Hrel].
  rewrite Hev. subst u.
  destruct (opt_clear (vo_priv v) =? 0); cbn;
    repeat rewrite <- app_assoc; reflexivity.
Qed.

(** ** What the driver keeps across the host's calls *)

Lemma dealloc_buffers_layout (v : vo) :
  options (dealloc_buffers v) = options v /\
  width (vo_priv (dealloc_buffers v)) = width (vo_priv v) /\
  height (vo_priv (dealloc_buffers v)) = height (vo_priv v) /\
  dst_rect (vo_priv (dealloc_buffers v)) = dst_rect (vo_priv v).
Proof.
  unfold dealloc_buffers. repeat break_branch; cbn; auto.
Qed.

(** Resolving the layout and reconfiguring the compositor establishes the
    layout invariant, whatever held before. *)
Lemma update_params_layout (e : env) (par : mp_image_params) (v : vo) :
  options (snd (update_params e par (set_output_parameters e v))) = options v /\
  layout_inv (snd (update_params e par (set_output_parameters e v))).
Proof.
  set (v0 := set_output_parameters e v).
  assert (H0 : options v0 = options v /\
               width (vo_priv v0)
               = CInt.sub (x1 (dst_rect (vo_priv v0))) (x0 (dst_rect (vo_priv v0))) /\
               height (vo_priv v0)
               = CInt.sub (y1 (dst_rect (vo_priv v0))) (y0 (dst_rect (vo_priv v0)))).
  { subst v0. unfold set_output_parameters.
    destruct (e_rects e) as [[src dst] o]. cbn. auto. }
  clearbody v0. destruct H0 as (Ho & Hw & Hh).
  unfold update_params.
  set (u := with_priv _ v0).
  destruct (dealloc_buffers_layout u) as (Do & Dw & Dh & Dr).
  change (options u) with (options v0) in Do.
  change (width (vo_priv u)) with (width (vo_priv v0)) in Dw.
  change (height (vo_priv u)) with (height (vo_priv v0)) in Dh.
  change (dst_rect (vo_priv u)) with (dst_rect (vo_priv v0)) in Dr.
  set (d := dealloc_buffers u) in *. clearbody d. clear u.
  unfold layout_inv, options in *. cbn. unfold mp_image_alloc.
  destruct (e_alloc e) as [[stride bytes]|]; cbn;
    [destruct (e_sws_reinit e <? 0); cbn|];
    (split; [congruence|]);
    rewrite Dw, Dh, Dr;
    (split; [exact Hw|]); (split; [exact Hh|]);
    intros img Himg; try discriminate;
    inversion Himg; subst; cbn; rewrite ?Dw, ?Dh; auto.
Qed.

Lemma reconfig_layout (e : env) (par : mp_image_params) (v : vo) :
  options (snd (reconfig e par v)) = options v /\
  layout_inv (snd (reconfig e par v)).
Proof.
  unfold reconfig.
  destruct (update_canvas_dimensions_positive e v) as (_ & _ & Hok).
  destruct (update_canvas_dimensions_frame e v) as (_ & _ & _ & Hp).
  rewrite Hok.
  assert (Ho : options (update_canvas_dimensions e v) = options v)
    by (unfold options; rewrite Hp; reflexivity).
  destruct (update_params_layout e par (update_canvas_dimensions e v))
    as (Uo & Ul).
  destruct (update_params e par _) as [ret v2]. cbn [snd] in *.
  split; [|exact Ul].
  unfold options in *. cbn. rewrite <- Ho. exact Uo.
Qed.

Lemma flip_page_layout (v : vo) :
  options (flip_page v) = options v /\
  (layout_inv v -> layout_inv (flip_page v)).
Proof.
  unfold flip_page. repeat break_branch; cbn; auto.
Qed.

Lemma uninit_layout (v : vo) :
  options (uninit v) = options v /\
  (layout_inv v -> layout_inv (uninit v)).
Proof.
  unfold uninit.
  set (u := with_os (emit Fflush) _).
  assert (Hu : options u = options v /\
               width (vo_priv u) = width (vo_priv v) /\
               height (vo_priv u) = height (vo_priv v) /\
               dst_rect (vo_priv u) = dst_rect (vo_priv v)).
  { subst u. destruct (negb (opt_clear (vo_priv v) =? 0)); cbn; auto. }
  destruct Hu as (Uo & Uw & Uh & Ur). clearbody u.
  destruct (dealloc_buffers_layout u) as (Do & Dw & Dh & Dr).
  destruct (dealloc_buffers_fields u) as (_ & _ & Df).
  split; [congruence|].
  unfold layout_inv. intros (Hw & Hh & _).
  rewrite Dw, Dh, Dr, Uw, Uh, Ur, Df.
  split; [exact Hw|]. split; [exact Hh|]. intros img X. discriminate.
Qed.

Lemma control_layout (e : env) (request : voctrl) (v : vo) :
  options (snd (control e request v)) = options v /\
  (layout_inv v -> layout_inv (snd (control e request v))).
Proof.
  unfold control. destruct request; [|auto].
  destruct (config_ok v); [|auto].
  destruct (reconfig_layout e (params v) v) as (Ro & Rl).
  destruct (reconfig e (params v) v) as [ret v2]. cbn [snd] in *.
  destruct (ret =? 0); cbn [snd]; auto.
Qed.

Section KeptAcrossCalls.

Variable mp_sws_scale :
  mp_sws_context -> mp_image -> src_image -> mp_rect -> list byte.
Variable mp_image_clear : mp_image -> Z -> Z -> Z -> Z -> list byte.
Variable osd_draw_on_image : mp_osd_res -> Z -> mp_image -> list byte.

Lemma draw_frame_layout (e : env) (f : vo_frame) (v v' : vo) :
  draw_frame mp_sws_scale mp_image_clear osd_draw_on_image e f v = Some v' ->
  options v' = options v /\ (layout_inv v -> layout_inv v').
Proof.
  intros E.
  pose proof (draw_frame_cases _ _ _ e f v v' E) as C. cbv zeta in C.
  destruct (update_canvas_dimensions_frame e v) as (_ & _ & _ & Hp).
  set (v1 := update_canvas_dimensions e v) in *.
  assert (H1 : options v1 = options v /\ (layout_inv v -> layout_inv v1)).
  { unfold options, layout_inv. rewrite Hp. cbn. auto. }
  clear Hp.
  set (resized := negb (dwidth v =? dwidth v1)
                  || negb (dheight v =? dheight v1)) in *.
  set (v2 := if resized
             then with_os (emit (Printf ESC_CLEAR_SCREEN))
                    (snd (update_params e (params v1)
                            (set_output_parameters e v1)))
             else v1) in *.
  assert (H2 : options v2 = options v /\ (layout_inv v -> layout_inv v2)).
  { subst v2. destruct resized; [|exact H1].
    destruct (update_params_layout e (params v1) v1) as (Uo & Ul).
    destruct H1 as (Ho & _).
    unfold options, layout_inv in *. cbn. split; [congruence|].
    intros _. exact Ul. }
  clearbody v2. clear H1. destruct H2 as (Ho & Hl).
  destruct C as [[_ ->] | (_ & v3 & Ec & Ep)].
  - unfold options, layout_inv in *. cbn. auto.
  - destruct (draw_frame_composite_effect _ _ _ f _ v3 Ec)
      as (_ & _ & _ & _ & _ & _ & Co & Cw & Ch & Cr
          & (img & img' & Cf & Cf' & Ciw & Cih & _) & _).
    destruct (draw_frame_publish_effect e f v3 v' Ep)
      as (_ & Po & Pw & Ph & Pr & Pf & _).
    cbn in Co, Cw, Ch, Cr, Cf.
    split; [unfold options in *; cbn in *; congruence|].
    intros Hinv. specialize (Hl Hinv).
    destruct Hl as (Lw & Lh & Lf).
    unfold layout_inv. rewrite Pw, Ph, Pr, Pf, Cw, Ch, Cr.
    split; [exact Lw|]. split; [exact Lh|].
    intros i Hi. rewrite Cf' in Hi. inversion Hi; subst i.
    rewrite Ciw, Cih. apply Lf. exact Cf.
Qed.

Lemma call_layout (c : callback) (v v' : vo) :
  call mp_sws_scale mp_image_clear osd_draw_on_image c v = Some v' ->
  options v' = options v /\ (layout_inv v -> layout_inv v').
Proof.
  destruct c as [| supported format | e par | e request | e f | | | ok par];
    cbn [call]; intros E;
    try (inversion E; subst v'; clear E).
  - unfold options, layout_inv. cbn. auto.
  - unfold query_format, options, layout_inv. destruct supported; cbn; auto.
  - destruct (reconfig_layout e par v) as (Ro & Rl). auto.
  - apply control_layout.
  - apply (draw_frame_layout e f v v' E).
  - apply flip_page_layout.
  - apply uninit_layout.
  - unfold options, layout_inv. cbn. auto.
Qed.

(** X7. No callback writes the user's options: after any sequence of calls
    that returns they are what they were. *)
Theorem run_keeps_options (cs : list callback) (v v' : vo)
  (Hrun : run mp_sws_scale mp_image_clear osd_draw_on_image cs v = Some v') :
  options v' = options v.
Proof.
  revert v Hrun. induction cs as [|c cs IH]; intros v Hrun; cbn in Hrun.
  - inversion Hrun. reflexivity.
  - destruct (call _ _ _ c v) as [v1|] eqn:Ec; [|discriminate].
    rewrite (IH v1 Hrun). apply (call_layout c v v1 Ec).
Qed.

(** X8. Across any sequence of calls that returns, the recorded image size is
    that of the destination rectangle and the raster the driver holds, if
    any, has exactly that size. *)
Theorem run_keeps_layout (cs : list callback) (v v' : vo)
  (Hinv : layout_inv v)
  (Hrun : run mp_sws_scale mp_image_clear osd_draw_on_image cs v = Some v') :
  layout_inv v'.
Proof.
  revert v Hinv Hrun.
  induction cs as [|c cs IH]; intros v Hinv Hrun; cbn in Hrun.
  - inversion Hrun; subst. exact Hinv.
  - destruct (call _ _ _ c v) as [v1|] eqn:Ec; [|discriminate].
    apply (IH v1); [|exact Hrun].
    apply (call_layout c v v1 Ec). exact Hinv.
Qed.

End KeptAcrossCalls.

(** The whole life of the concrete driver, with a resize between its two
    frames. *)
Lemma run_keeps_options_witness :
  exists v',
    run scale0 clear0 osd0
      [Call_preinit; Call_query_format true 7; Call_reconfig env0 params0;
       Call_draw_frame env0 new_frame; Call_flip_page;
       Call_draw_frame env_resized repeated_frame; Call_flip_page;
       Call_uninit] vo0 = Some v' /\
    options v' = (0, 0, 0, 0, 1).
Proof.
  eexists. split; [vm_compute; reflexivity|].
  rewrite (run_keeps_options scale0 clear0 osd0
             [Call_preinit; Call_query_format true 7;
              Call_reconfig env0 params0;
              Call_draw_frame env0 new_frame; Call_flip_page;
              Call_draw_frame env_resized repeated_frame; Call_flip_page;
              Call_uninit] vo0 _ ltac:(vm_compute; reflexivity)).
  reflexivity.
Defined.

Lemma run_keeps_layout_witness :
  layout_inv vo0 /\
  layout_inv vo_resized.
Proof.
  assert (H0 : layout_inv vo0).
  { unfold layout_inv. cbn. repeat split; discriminate. }
  split; [exact H0|].
  apply (run_keeps_layout scale0 clear0 osd0
           [Call_preinit; Call_query_format true 7;
            Call_reconfig env0 params0;
            Call_draw_frame env0 new_frame; Call_flip_page;
            Call_draw_frame env_resized repeated_frame] vo0 vo_resized H0).
  vm_compute. reflexivity.
Defined.

(** ** Repeats under an unchanged terminal *)

(** The resolved canvas depends on the terminal's answer and on the two
    size options only. *)
Lemma update_canvas_dimensions_dims (e e' : env) (v v' : vo) :
  e_term e' = e_term e -> options v' = options v ->
  dwidth (update_canvas_dimensions e' v') = dwidth (update_canvas_dimensions e v) /\
  dheight (update_canvas_dimensions e' v') = dheight (update_canvas_dimensions e v).
Proof.
  intros Ht Ho. unfold options in Ho. injection Ho as Hw Hh _ _ _.
  unfold update_canvas_dimensions, terminal_get_size2.
  rewrite Ht, Hw, Hh.
  destruct (e_term e) as [[[[r c] qw] qh]|]; cbn; auto.
Qed.

Section Repeats.

Variable mp_sws_scale :
  mp_sws_context -> mp_image -> src_image -> mp_rect -> list byte.
Variable mp_image_clear : mp_image -> Z -> Z -> Z -> Z -> list byte.
Variable osd_draw_on_image : mp_osd_res -> Z -> mp_image -> list byte.

Lemma draw_frame_skips (e : env) (f : vo_frame) (v : vo) :
  repeat f = true -> redraw f = false ->
  dwidth (update_canvas_dimensions e v) = dwidth v ->
  dheight (update_canvas_dimensions e v) = dheight v ->
  draw_frame mp_sws_scale mp_image_clear osd_draw_on_image e f v
  = Some (with_priv (set_skip_frame_draw true) (update_canvas_dimensions e v)).
Proof.
  intros Hr Hd Hw Hh. unfold draw_frame.
  destruct (update_canvas_dimensions_positive e v) as (_ & _ & Hok).
  rewrite Hok, Hw, Hh, !Z.eqb_refl, Hr, Hd. reflexivity.
Qed.

(** X9. Once a draw has returned, a repeat that needs no overlay redraw, drawn
    while the terminal answers as it did, is skipped: it makes no call,
    leaves the raster and the process as they are, and its present does
    nothing.  The same holds for every further such repeat. *)
Theorem repeat_after_draw_skipped (e e' : env) (f f' : vo_frame) (v v' : vo)
  (Hdraw : draw_frame mp_sws_scale mp_image_clear osd_draw_on_image e f v
           = Some v')
  (Hterm : e_term e' = e_term e)
  (Hrep : repeat f' = true) (Hred : redraw f' = false) :
  let v'' := with_priv (set_skip_frame_draw true)
               (update_canvas_dimensions e' v') in
  draw_frame mp_sws_scale mp_image_clear osd_draw_on_image e' f' v'
    = Some v'' /\
  os v'' = os v' /\
  frame (vo_priv v'') = frame (vo_priv v') /\
  flip_page v'' = v'' /\
  draw_frame mp_sws_scale mp_image_clear osd_draw_on_image e' f' v''
    = Some v''.
Proof.
  cbv zeta.
  destruct (draw_frame_layout _ _ _ e f v v' Hdraw) as (Ho & _).
  pose proof (draw_frame_canvas _ _ _ e f v v' Hdraw) as Hc.
  unfold canvas in Hc. injection Hc as Hcw Hch _.
  destruct (update_canvas_dimensions_dims e e' v v' Hterm Ho) as (Dw & Dh).
  assert (Hw : dwidth (update_canvas_dimensions e' v') = dwidth v')
    by congruence.
  assert (Hh : dheight (update_canvas_dimensions e' v') = dheight v')
    by congruence.
  destruct (update_canvas_dimensions_frame e' v') as (Hos & _ & _ & Hp).
  destruct (update_canvas_dimensions_positive e' v') as (_ & _ & Hok).
  set (u := update_canvas_dimensions e' v') in *.
  split; [apply draw_frame_skips; assumption|].
  split; [exact Hos|].
  split; [cbn; rewrite Hp; reflexivity|].
  split; [unfold flip_page; cbn; rewrite Hok; reflexivity|].
  set (w := with_priv (set_skip_frame_draw true) u).
  assert (Hwo : options w = options v')
    by (subst w; unfold options; cbn; rewrite Hp; reflexivity).
  destruct (update_canvas_dimensions_dims e' e' v' w eq_refl Hwo) as (Ew & Eh).
  fold u in Ew, Eh.
  destruct (update_canvas_dimensions_frame e' w) as (_ & _ & _ & Hpw).
  rewrite (draw_frame_skips e' f' w Hrep Hred); [| exact Ew | exact Eh].
  f_equal.
  assert (Hsame : update_canvas_dimensions e' w = w).
  { unfold update_canvas_dimensions in *. subst w u.
    unfold update_canvas_dimensions.
    destruct (terminal_get_size2 e' (0, 0, 0, 0)) as [[[r c] qw] qh].
    cbn. reflexivity. }
  rewrite Hsame. subst w. reflexivity.
Qed.

End Repeats.

(** After the first frame of the concrete run, a repeat under the same
    terminal. *)
Lemma repeat_after_draw_skipped_witness :
  let v'' := with_priv (set_skip_frame_draw true)
               (update_canvas_dimensions env0 vo_drawn) in
  draw_frame scale0 clear0 osd0 env0 repeated_frame vo_drawn = Some v'' /\
  os v'' = os vo_drawn /\
  flip_page v'' = v''.
Proof.
  intros v''.
  destruct (repeat_after_draw_skipped scale0 clear0 osd0 env0 env0
              new_frame repeated_frame vo_ready vo_drawn
              ltac:(vm_compute; reflexivity) eq_refl eq_refl eq_refl)
    as (H1 & H2 & _ & H4 & _).
  split; [exact H1|]. split; [exact H2 | exact H4].
Defined.

(** ** What a failed transfer gives back *)

Lemma filter_fresh_fd (fd : Z) (l : list Z) :
  ~ In fd l -> filter (fun d => negb (d =? fd)) (fd :: l) = l.
Proof.
  intros Hn. cbn. rewrite Z.eqb_refl. cbn.
  induction l as [|d l IH]; [reflexivity|].
  cbn. destruct (Z.eqb_spec d fd) as [-> | Hd].
  - exfalso. apply Hn. left. reflexivity.
  - cbn. f_equal. apply IH. intros X. apply Hn. right. exact X.
Qed.

(** X10. When creating, sizing or mapping the object fails, the draw logs a
    warning and copies nothing, and the process holds the descriptors and
    mappings it held before the draw: the descriptor [shm_open] returned,
    one the process did not have, is closed again.  If the object had been
    opened its name is removed; if it had not, the name space is left
    alone. *)
Theorem publish_failure_releases (e : env) (f : vo_frame) (v v' : vo)
  (Hpub : draw_frame_publish e f v = Some v')
  (Hfail : e_shm_open e = -1 \/ e_ftruncate e = -1 \/ e_mmap e = MAP_FAILED)
  (Hfresh : ~ In (e_shm_open e) (fds (os v))) :
  fds (os v') = fds (os v) /\
  maps (os v') = maps (os v) /\
  (e_shm_open e = -1 -> shm (os v') = shm (os v)) /\
  (e_shm_open e <> -1 ->
   shm (os v') = None /\ In (Shm_unlink SHM_NAME) (new_events v v') /\
   In (Close (e_shm_open e)) (new_events v v')) /\
  (exists msg, In (MP_WARN msg) (new_events v v')) /\
  (forall line h line' stride,
      ~ In (Memcpy_pic line h line' stride) (new_events v v')).
Proof.
  destruct (draw_frame_publish_effect e f v v' Hpub)
    as (_ & _ & _ & _ & _ & _ & _ & _ & P).
  assert (Hheld : fds (os v') = fds (os v) /\ maps (os v') = maps (os v) /\
                  (e_shm_open e = -1 -> shm (os v') = shm (os v)) /\
                  (e_shm_open e <> -1 -> shm (os v') = None)).
  { destruct P as [(Q1 & Pf & Pm & Ps & _)
                  | [(Q1 & _ & Pf & Pm & Ps & _)
                    | (Q1 & Q2 & Q3 & _)]].
    - split; [exact Pf|]. split; [exact Pm|]. split.
      + intros _. exact Ps.
      + intros X. contradiction.
    - rewrite (filter_fresh_fd _ _ Hfresh) in Pf.
      split; [exact Pf|]. split; [exact Pm|]. split.
      + intros X. contradiction.
      + intros _. exact Ps.
    - exfalso. destruct Hfail as [? | [? | ?]]; contradiction. }
  destruct Hheld as (Hf & Hm & Hs1 & Hs2).
  split; [exact Hf|]. split; [exact Hm|]. split; [exact Hs1|].
  pose proof (draw_frame_publish_cases e f v v' Hpub) as C. cbv zeta in C.
  destruct C as [(F1 & Ev) | [(F1 & F2 & Ev) | [(F1 & F2 & F3 & Ev)
               | (F1 & F2 & F3 & _)]]];
    [| | | exfalso; destruct Hfail as [? | [? | ?]]; contradiction];
    rewrite Ev.
  - split; [intros X; contradiction|]. split.
    + eexists. right. left. reflexivity.
    + intros a b c d [X | [X | []]]; discriminate.
  - split; [|split].
    + intros X. split; [exact (Hs2 X)|]. split.
      * right. right. right. left. reflexivity.
      * right. right. right. right. left. reflexivity.
    + eexists. right. right. left. reflexivity.
    + intros a b c d [X | [X | [X | [X | [X | []]]]]]; discriminate.
  - split; [|split].
    + intros X. split; [exact (Hs2 X)|]. split.
      * right. right. right. right. left. reflexivity.
      * right. right. right. right. right. left. reflexivity.
    + eexists. right. right. right. left. reflexivity.
    + intros a b c d [X | [X | [X | [X | [X | [X | []]]]]]]; discriminate.
Qed.

(** The concrete run with [ftruncate] failing. *)
Lemma publish_failure_releases_witness :
  draw_frame_publish env_ftruncate_fails new_frame vo_composited
    = Some vo_truncate_failed /\
  fds (os vo_truncate_failed) = fds (os vo_composited) /\
  maps (os vo_truncate_failed) = maps (os vo_composited) /\
  shm (os vo_truncate_failed) = None.
Proof.
  assert (E : draw_frame_publish env_ftruncate_fails new_frame vo_composited
              = Some vo_truncate_failed)
    by (vm_compute; reflexivity).
  assert (Hfail : e_shm_open env_ftruncate_fails = -1
                  \/ e_ftruncate env_ftruncate_fails = -1
                  \/ e_mmap env_ftruncate_fails = MAP_FAILED)
    by (right; left; reflexivity).
  assert (Hfresh : ~ In (e_shm_open env_ftruncate_fails)
                        (fds (os vo_composited)))
    by (vm_compute; intros X; exact X).
  destruct (publish_failure_releases env_ftruncate_fails new_frame
              vo_composited vo_truncate_failed E Hfail Hfresh)
    as (Hf & Hm & _ & Hs & _).
  assert (Hopen : e_shm_open env_ftruncate_fails <> -1)
    by (vm_compute; discriminate).
  destruct (Hs Hopen) as (Hnone & _).
  split; [exact E|]. split; [exact Hf|]. split; [exact Hm|]. exact Hnone.
Defined.

(** ** A repeat right after a reconfiguration *)

Lemma reconfig_canvas (e : env) (par : mp_image_params) (v : vo) :
  canvas (snd (reconfig e par v)) = canvas (update_canvas_dimensions e v).
Proof.
  unfold reconfig.
  destruct (update_canvas_dimensions_positive e v) as (_ & _ & Hok).
  rewrite Hok.
  pose proof (update_params_canvas e par
                (set_output_parameters e (update_canvas_dimensions e v))) as H.
  rewrite set_output_parameters_canvas in H.
  destruct (update_params e par _) as [ret v2]. cbn [snd] in *.
  unfold canvas in *. cbn. exact H.
Qed.

Section AfterReconfig.

Variable mp_sws_scale :
  mp_sws_context -> mp_image -> src_image -> mp_rect -> list byte.
Variable mp_image_clear : mp_image -> Z -> Z -> Z -> Z -> list byte.
Variable osd_draw_on_image : mp_osd_res -> Z -> mp_image -> list byte.

(** X12. [reconfig] asks the host for a redraw and relies on it: a frame the
    host marks as a repeat needing no redraw, drawn first after a [reconfig]
    while the terminal answers as it did, is skipped like any other repeat,
    although nothing has been drawn since the raster was replaced. *)
Theorem repeat_after_reconfig_skipped (e e' : env) (par : mp_image_params)
  (f' : vo_frame) (v : vo)
  (Hterm : e_term e' = e_term e)
  (Hrep : repeat f' = true) (Hred : redraw f' = false) :
  let v' := snd (reconfig e par v) in
  let v'' := with_priv (set_skip_frame_draw true)
               (update_canvas_dimensions e' v') in
  want_redraw v' = true /\
  draw_frame mp_sws_scale mp_image_clear osd_draw_on_image e' f' v'
    = Some v'' /\
  os v'' = os v' /\
  frame (vo_priv v'') = frame (vo_priv v') /\
  flip_page v'' = v''.
Proof.
  cbv zeta.
  destruct (reconfig_layout e par v) as (Ho & _).
  pose proof (reconfig_canvas e par v) as Hc.
  assert (Hwr : want_redraw (snd (reconfig e par v)) = true).
  { unfold reconfig. destruct (canvas_ok _);
      [destruct (update_params e par _) as [ret v2]|]; reflexivity. }
  set (v' := snd (reconfig e par v)) in *. clearbody v'.
  unfold canvas in Hc. injection Hc as Hcw Hch _.
  destruct (update_canvas_dimensions_dims e e' v v' Hterm Ho) as (Dw & Dh).
  destruct (update_canvas_dimensions_frame e' v') as (Hos & _ & _ & Hp).
  destruct (update_canvas_dimensions_positive e' v') as (_ & _ & Hok).
  split; [exact Hwr|].
  split; [apply draw_frame_skips; congruence|].
  split; [exact Hos|].
  split; [cbn; rewrite Hp; reflexivity|].
  unfold flip_page. cbn. rewrite Hok. reflexivity.
Qed.

(** ** References to the host's pictures *)

Lemma draw_frame_composite_refs (f : vo_frame) (v v' : vo) :
  draw_frame_composite mp_sws_scale mp_image_clear osd_draw_on_image f v
    = Some v' ->
  refs (os v') = match current f with
                 | Some _ => S (refs (os v))
                 | None => refs (os v)
                 end.
Proof.
  unfold draw_frame_composite. intros E.
  destruct (frame (vo_priv v)); [|discriminate].
  destruct (current f); inversion E; subst; reflexivity.
Qed.

Lemma draw_frame_publish_refs (e : env) (f : vo_frame) (v v' : vo) :
  draw_frame_publish e f v = Some v' ->
  e_shm_open e <> -1 -> e_ftruncate e <> -1 -> e_mmap e <> MAP_FAILED ->
  refs (os v') = match current f with
                 | Some _ => pred (refs (os v))
                 | None => refs (os v)
                 end.
Proof.
  unfold draw_frame_publish, sys_shm_open, sys_ftruncate, sys_mmap.
  cbn. intros E H1 H2 H3.
  destruct (Z.eqb_spec (e_shm_open e) (-1)) as [|_]; [contradiction|].
  destruct (Z.eqb_spec (e_ftruncate e) (-1)) as [|_]; [contradiction|].
  destruct (Z.eqb_spec (e_mmap e) MAP_FAILED) as [|_]; [contradiction|].
  cbn in E.
  destruct (frame (vo_priv v)); [|discriminate].
  destruct (memcpy_pic _ _ _ _ _ _); [|discriminate].
  destruct (current f); inversion E; subst; reflexivity.
Qed.

Lemma update_params_refs (e : env) (par : mp_image_params) (v : vo) :
  refs (os (snd (update_params e par v))) = refs (os v).
Proof.
  unfold update_params.
  set (v0 := with_priv _ v).
  destruct (dealloc_buffers_shape v0) as (_ & _ & _ & _ & _ & R).
  change (refs (os v0)) with (refs (os v)) in R.
  set (d := dealloc_buffers v0) in *. clearbody d. cbn.
  destruct (mp_image_alloc e _ _); cbn;
    [destruct (e_sws_reinit e <? 0); cbn|]; exact R.
Qed.

(** X11. A draw that skips, or whose transfer is created, sized and mapped,
    frees the reference it took on the host's picture: the driver holds as
    many references after the draw as before. *)
Theorem draw_frame_refs_balanced (e : env) (f : vo_frame) (v v' : vo)
  (Hdraw : draw_frame mp_sws_scale mp_image_clear osd_draw_on_image e f v
           = Some v')
  (Hpub : skip_frame_draw (vo_priv v') = true \/
          (e_shm_open e <> -1 /\ e_ftruncate e <> -1 /\
           e_mmap e <> MAP_FAILED)) :
  refs (os v') = refs (os v).
Proof.
  pose proof (draw_frame_cases _ _ _ e f v v' Hdraw) as C. cbv zeta in C.
  destruct (update_canvas_dimensions_frame e v) as (Hos & _).
  set (v1 := update_canvas_dimensions e v) in *.
  set (resized := negb (dwidth v =? dwidth v1)
                  || negb (dheight v =? dheight v1)) in *.
  set (v2 := if resized
             then with_os (emit (Printf ESC_CLEAR_SCREEN))
                    (snd (update_params e (params v1)
                            (set_output_parameters e v1)))
             else v1) in *.
  assert (H2 : refs (os v2) = refs (os v)).
  { subst v2. destruct resized; [|rewrite Hos; reflexivity].
    cbn. rewrite update_params_refs, set_output_parameters_os, Hos.
    reflexivity. }
  clearbody v2.
  destruct C as [[_ ->] | (_ & v3 & Ec & Ep)]; [exact H2|].
  destruct (draw_frame_composite_effect _ _ _ f _ v3 Ec)
    as (_ & _ & _ & _ & _ & Cs & _).
  destruct (draw_frame_publish_effect e f v3 v' Ep) as (Ps & _).
  destruct Hpub as [Hs | (P1 & P2 & P3)].
  { rewrite Ps, Cs in Hs. cbn in Hs. discriminate. }
  rewrite (draw_frame_publish_refs e f v3 v' Ep P1 P2 P3).
  rewrite (draw_frame_composite_refs f _ v3 Ec). cbn.
  destruct (current f); cbn; exact H2.
Qed.

End AfterReconfig.

(** A repeat drawn first on the concrete driver after its [reconfig]. *)
Lemma repeat_after_reconfig_skipped_witness :
  draw_frame scale0 clear0 osd0 env0 repeated_frame vo_ready
    = Some (with_priv (set_skip_frame_draw true)
              (update_canvas_dimensions env0 vo_ready)) /\
  want_redraw vo_ready = true.
Proof.
  destruct (repeat_after_reconfig_skipped scale0 clear0 osd0 env0 env0
              params0 repeated_frame vo_init eq_refl eq_refl eq_refl)
    as (H1 & H2 & _).
  split; [exact H2 | exact H1].
Defined.

(** The first frame of the concrete run carries a picture and is
    published. *)
Lemma draw_frame_refs_balanced_witness :
  current new_frame = Some picture0 /\
  refs (os vo_drawn) = refs (os vo_ready).
Proof.
  split; [reflexivity|].
  apply (draw_frame_refs_balanced scale0 clear0 osd0 env0 new_frame
           vo_ready vo_drawn).
  - vm_compute. reflexivity.
  - right. repeat split; vm_compute; discriminate.
Defined.

(** ** The skip decision *)

Section SkipDecision.

Variable mp_sws_scale :
  mp_sws_context -> mp_image -> src_image -> mp_rect -> list byte.
Variable mp_image_clear : mp_image -> Z -> Z -> Z -> Z -> list byte.
Variable osd_draw_on_image : mp_osd_res -> Z -> mp_image -> list byte.

(** Compositing needs the raster and nothing else; what it leaves in the
    raster and the calls it makes are those of [composited] and
    [composite_calls]. *)
Lemma draw_frame_composite_exact (f : vo_frame) (v : vo) :
  match frame (vo_priv v) with
  | None =>
      draw_frame_composite mp_sws_scale mp_image_clear osd_draw_on_image f v
      = None
  | Some img =>
      exists v',
        draw_frame_composite mp_sws_scale mp_image_clear osd_draw_on_image f v
        = Some v' /\
        frame (vo_priv v')
        = Some (composited mp_sws_scale mp_image_clear osd_draw_on_image f
                  (vo_priv v) img) /\
        trace (os v') = trace (os v) ++ composite_calls f (vo_priv v)
  end.
Proof.
  unfold draw_frame_composite, composited, composite_calls, crop_rect.
  destruct (frame (vo_priv v)) as [img|]; [|reflexivity].
  destruct (current f) as [mpi|]; eexists; (split; [reflexivity|]); cbn;
    (split; [reflexivity|]); repeat rewrite <- app_assoc; reflexivity.
Qed.

End SkipDecision.

(** The calls of a transfer that returns are those of [transfer_calls]. *)
Lemma draw_frame_publish_calls (e : env) (f : vo_frame) (v v' : vo)
  (img : mp_image) :
  draw_frame_publish e f v = Some v' ->
  frame (vo_priv v) = Some img ->
  trace (os v') =
    trace (os v)
      ++ transfer_calls e f (width (vo_priv v)) (height (vo_priv v))
           (stride0 img).
Proof.
  unfold draw_frame_publish, transfer_calls, sys_shm_open, sys_ftruncate,
    sys_mmap.
  cbn. intros E Himg.
  destruct (e_shm_open e =? -1).
  { inversion E; subst; clear E. cbn. rewrite <- app_assoc. reflexivity. }
  destruct (e_ftruncate e =? -1).
  { inversion E; subst; clear E. cbn. repeat rewrite <- app_assoc.
    reflexivity. }
  destruct (e_mmap e =? MAP_FAILED).
  { inversion E; subst; clear E. cbn. repeat rewrite <- app_assoc.
    reflexivity. }
  cbn in E. rewrite Himg in E.
  destruct (memcpy_pic _ _ _ _ _ _) as [region'|]; [|discriminate].
  destruct (current f); inversion E; subst; clear E; cbn;
    repeat rewrite <- app_assoc; reflexivity.
Qed.

(** A transfer returns when one of its calls fails, and when none fails and
    the raster fits. *)
Lemma draw_frame_publish_returns (e : env) (f : vo_frame) (v : vo)
  (img : mp_image) :
  frame (vo_priv v) = Some img ->
  e_shm_open e = -1 \/ e_ftruncate e = -1 \/ e_mmap e = MAP_FAILED \/
  raster_fits (width (vo_priv v)) (height (vo_priv v)) img ->
  exists v', draw_frame_publish e f v = Some v'.
Proof.
  intros Himg Hcase.
  unfold draw_frame_publish, sys_shm_open, sys_ftruncate, sys_mmap. cbn.
  destruct (Z.eqb_spec (e_shm_open e) (-1)) as [E1|E1];
    [eexists; reflexivity|].
  destruct (Z.eqb_spec (e_ftruncate e) (-1)) as [E2|E2];
    [eexists; reflexivity|].
  destruct (Z.eqb_spec (e_mmap e) MAP_FAILED) as [E3|E3];
    [eexists; reflexivity|].
  destruct Hcase as [H|[H|[H|H]]]; try contradiction.
  destruct H as (Hw & Hh & Hsize & Hstride & Hint & Hplane).
  set (w := width (vo_priv v)) in *. set (h := height (vo_priv v)) in *.
  assert (Hwh : 0 <= w * h) by (apply Z.mul_nonneg_nonneg; lia).
  assert (Hline : CInt.wrap (CInt.umul w depth) = w * 4).
  { apply line_bytes_exact. lia. }
  assert (Hbytes : CInt.wrap (CInt.umul (CInt.mul w h) depth) = w * h * 4).
  { rewrite byte_count_exact by lia. apply wrap_small.
    unfold CInt.in_range, CInt.int_min, CInt.int_max in *. lia. }
  assert (Hbound : Z.to_nat h <> O ->
            0 + Z.of_nat (pred (Z.to_nat h)) * stride0 img + w * 4
            <= Z.of_nat (List.length (planes0 img))).
  { intros Hk. rewrite Nat2Z.inj_pred by lia. rewrite Z2Nat.id by lia. nia. }
  assert (Hst0 : 0 <= stride0 img) by lia.
  assert (Hrows :
    forall old,
      memcpy_pic (resize (Z.to_nat (w * h * 4)) old) (planes0 img)
        (w * 4) h (w * 4) (stride0 img)
      = Some (raster_rows (planes0 img) (stride0 img) (w * 4) (Z.to_nat h))).
  { intros old. unfold memcpy_pic.
    assert (Hdst : 0 + Z.of_nat (Z.to_nat h) * (w * 4)
                   <= Z.of_nat (List.length
                                  (resize (Z.to_nat (w * h * 4)) old)))
      by (rewrite resize_length; nia).
    rewrite (memcpy_pic_rows_spec (planes0 img) (w * 4) (stride0 img)
               (Z.to_nat h) _ 0 0
               ltac:(lia) ltac:(lia) ltac:(lia) Hst0 Hdst Hbound).
    cbn [Z.to_nat firstn app].
    rewrite skipn_all2, app_nil_r; [reflexivity|].
    rewrite resize_length. nia. }
  cbn. rewrite Himg. fold w h. rewrite Hline, Hbytes, Hrows.
  destruct (current f); eexists; reflexivity.
Qed.

(** What a draw does before it decides: nothing but resolving the canvas
    when its pixel size is the stored one, and otherwise the reconfiguration
    of [update_params] followed by the clearing of the screen. *)
Lemma draw_frame_prepare_calls (e : env) (v : vo) :
  let v1 := update_canvas_dimensions e v in
  let unchanged := (dwidth v =? dwidth v1) && (dheight v =? dheight v1) in
  let v2 :=
    if unchanged then v1
    else with_os (emit (Printf ESC_CLEAR_SCREEN))
           (snd (update_params e (params v1) (set_output_parameters e v1))) in
  exists prep,
    trace (os v2) = trace (os v) ++ prep /\
    (unchanged = true -> prep = []) /\
    (unchanged = false ->
     exists rel tail,
       prep = rel ++ Image_alloc (width (vo_priv v2)) (height (vo_priv v2))
                :: tail ++ [Printf ESC_CLEAR_SCREEN] /\
       forallb is_release rel = true /\
       (tail = [] \/ exists ctx, tail = [Sws_reinit ctx (e_sws_reinit e)])).
Proof.
  cbv zeta.
  destruct (update_canvas_dimensions_frame e v) as (Hos & _).
  set (v1 := update_canvas_dimensions e v) in *.
  destruct ((dwidth v =? dwidth v1) && (dheight v =? dheight v1)).
  - exists []. rewrite Hos, app_nil_r.
    split; [reflexivity|]. split; [reflexivity|discriminate].
  - destruct (update_params_events e (params v1) (set_output_parameters e v1))
      as (rel & tail & Ht & Hrel & Hnone & Hsome).
    destruct (update_params_alloc e (params v1) (set_output_parameters e v1))
      as (Hw & Hh & _).
    rewrite set_output_parameters_os, Hos in Ht.
    exists (rel ++ Image_alloc (width (vo_priv (set_output_parameters e v1)))
                     (height (vo_priv (set_output_parameters e v1)))
                :: tail ++ [Printf ESC_CLEAR_SCREEN]).
    split; [|split; [discriminate|]].
    + cbn. rewrite Ht. repeat rewrite <- app_assoc. reflexivity.
    + intros _. exists rel, tail. cbn. rewrite Hw, Hh.
      split; [reflexivity|]. split; [exact Hrel|].
      destruct (e_alloc e) as [a|].
      * right. apply Hsome. discriminate.
      * left. apply Hnone. reflexivity.
Qed.

(** C3. On a draw call (the canvas is valid after every resolution), the
    frame is marked skippable exactly when it is a repeat, needs no overlay
    redraw and the canvas pixel dimensions this draw resolves are the ones
    stored in the driver, which its last resolution left there: the previous
    draw, or a reconfiguration since.  In that case the draw makes no call at
    all: nothing is composited, nothing transferred, the raster and the
    process are as they were.  In every other case, and so whenever the draw
    finds the canvas resized even though the frame is a repeat, the draw
    returns as soon as it has a raster that fits or one of the transfer's
    calls fails, and a draw that returns has cleared the mark and has made
    exactly these calls: the reconfiguration when the canvas was resized,
    then the compositing of the frame into the raster (scale or clear, then
    the overlay), then the transfer of the raster, which leaves the object
    mapped when none of its calls failed.  A draw that returns leaves the
    dimensions it resolved in the driver. *)
Theorem draw_frame_skip_decision
  (mp_sws_scale : mp_sws_context -> mp_image -> src_image -> mp_rect -> list byte)
  (mp_image_clear : mp_image -> Z -> Z -> Z -> Z -> list byte)
  (osd_draw_on_image : mp_osd_res -> Z -> mp_image -> list byte)
  (e : env) (f : vo_frame) (v : vo) :
  let draw := draw_frame mp_sws_scale mp_image_clear osd_draw_on_image in
  let compose := composited mp_sws_scale mp_image_clear osd_draw_on_image in
  let v1 := update_canvas_dimensions e v in
  let unchanged := (dwidth v =? dwidth v1) && (dheight v =? dheight v1) in
  let skippable := repeat f && negb (redraw f) && unchanged in
  let v2 :=
    if unchanged then v1
    else with_os (emit (Printf ESC_CLEAR_SCREEN))
           (snd (update_params e (params v1) (set_output_parameters e v1))) in
  let p := vo_priv v2 in
  let size := CInt.wrap (CInt.umul (CInt.mul (width p) (height p)) depth) in
  (skippable = true ->
     draw e f v = Some (with_priv (set_skip_frame_draw true) v1) /\
     os v1 = os v /\ frame (vo_priv v1) = frame (vo_priv v)) /\
  ((exists v', draw e f v = Some v' /\ skip_frame_draw (vo_priv v') = true /\
               new_events v v' = [])
   <-> skippable = true) /\
  (skippable = false ->
     forall img, frame p = Some img ->
       e_shm_open e = -1 \/ e_ftruncate e = -1 \/ e_mmap e = MAP_FAILED \/
       raster_fits (width p) (height p) (compose f p img) ->
       exists v', draw e f v = Some v') /\
  (skippable = false ->
     forall v', draw e f v = Some v' ->
       skip_frame_draw (vo_priv v') = false /\
       exists img prep,
         frame p = Some img /\
         frame (vo_priv v') = Some (compose f p img) /\
         new_events v v' =
           prep ++ composite_calls f p
                ++ transfer_calls e f (width p) (height p) (stride0 img) /\
         (unchanged = true -> prep = []) /\
         (unchanged = false ->
          exists rel tail,
            prep = rel ++ Image_alloc (width p) (height p)
                     :: tail ++ [Printf ESC_CLEAR_SCREEN] /\
            forallb is_release rel = true /\
            (tail = [] \/ exists ctx, tail = [Sws_reinit ctx (e_sws_reinit e)])) /\
         (e_shm_open e <> -1 -> e_ftruncate e <> -1 ->
          e_mmap e <> MAP_FAILED ->
          mmap_fd (vo_priv v') = e_shm_open e /\
          buffer (vo_priv v') = e_mmap e /\
          In (e_mmap e, size) (maps (os v')) /\
          exists region,
            shm (os v') = Some region /\
            List.length region = Z.to_nat size)) /\
  (forall v', draw e f v = Some v' ->
     dwidth v' = dwidth v1 /\ dheight v' = dheight v1).
Proof.
  cbv zeta.
  destruct (update_canvas_dimensions_positive e v) as (_ & _ & Hok).
  destruct (update_canvas_dimensions_frame e v) as (Hos & _ & _ & Hp).
  assert (Hstored :
    forall v', draw_frame mp_sws_scale mp_image_clear osd_draw_on_image e f v
               = Some v' ->
      dwidth v' = dwidth (update_canvas_dimensions e v) /\
      dheight v' = dheight (update_canvas_dimensions e v)).
  { intros v' E.
    pose proof (draw_frame_canvas _ _ _ e f v v' E) as Hc.
    unfold canvas in Hc. inversion Hc. split; reflexivity. }
  pose proof (draw_frame_prepare_calls e v) as Hprep. cbv zeta in Hprep.
  set (v1 := update_canvas_dimensions e v) in *.
  assert (Hdraw :
    draw_frame mp_sws_scale mp_image_clear osd_draw_on_image e f v =
    let unchanged := (dwidth v =? dwidth v1) && (dheight v =? dheight v1) in
    let v2 := if unchanged then v1
              else with_os (emit (Printf ESC_CLEAR_SCREEN))
                     (snd (update_params e (params v1)
                             (set_output_parameters e v1))) in
    if repeat f && negb (redraw f) && unchanged then
      Some (with_priv (set_skip_frame_draw true) v2)
    else
      match draw_frame_composite mp_sws_scale mp_image_clear
              osd_draw_on_image f
              (with_priv (set_skip_frame_draw false) v2) with
      | Some v3 => draw_frame_publish e f v3
      | None => None
      end).
  { unfold draw_frame. fold v1. rewrite Hok. cbv zeta. cbn [negb].
    rewrite <- negb_andb.
    destruct ((dwidth v =? dwidth v1) && (dheight v =? dheight v1));
      reflexivity. }
  cbv zeta in Hdraw.
  set (unchanged := (dwidth v =? dwidth v1) && (dheight v =? dheight v1)) in *.
  set (v2 := if unchanged then v1 else _) in *.
  assert (Hskip : repeat f && negb (redraw f) && unchanged = true ->
                  draw_frame mp_sws_scale mp_image_clear osd_draw_on_image e f v
                  = Some (with_priv (set_skip_frame_draw true) v1)).
  { intros Hc. rewrite Hdraw, Hc.
    apply andb_prop in Hc. destruct Hc as [_ Hu].
    subst v2. rewrite Hu. reflexivity. }
  pose proof (draw_frame_composite_exact mp_sws_scale mp_image_clear
                osd_draw_on_image f
                (with_priv (set_skip_frame_draw false) v2)) as Hcomp.
  change (frame (vo_priv (with_priv (set_skip_frame_draw false) v2)))
    with (frame (vo_priv v2)) in Hcomp.
  change (trace (os (with_priv (set_skip_frame_draw false) v2)))
    with (trace (os v2)) in Hcomp.
  change (composite_calls f
            (vo_priv (with_priv (set_skip_frame_draw false) v2)))
    with (composite_calls f (vo_priv v2)) in Hcomp.
  change (composited mp_sws_scale mp_image_clear osd_draw_on_image f
            (vo_priv (with_priv (set_skip_frame_draw false) v2)))
    with (composited mp_sws_scale mp_image_clear osd_draw_on_image f
            (vo_priv v2)) in Hcomp.
  assert (Hwork : repeat f && negb (redraw f) && unchanged = false ->
     forall v', draw_frame mp_sws_scale mp_image_clear osd_draw_on_image e f v
                = Some v' ->
       skip_frame_draw (vo_priv v') = false /\
       exists img prep,
         frame (vo_priv v2) = Some img /\
         frame (vo_priv v')
         = Some (composited mp_sws_scale mp_image_clear osd_draw_on_image f
                   (vo_priv v2) img) /\
         new_events v v' =
           prep ++ composite_calls f (vo_priv v2)
                ++ transfer_calls e f (width (vo_priv v2))
                     (height (vo_priv v2)) (stride0 img) /\
         (unchanged = true -> prep = []) /\
         (unchanged = false ->
          exists rel tail,
            prep = rel ++ Image_alloc (width (vo_priv v2))
                            (height (vo_priv v2))
                     :: tail ++ [Printf ESC_CLEAR_SCREEN] /\
            forallb is_release rel = true /\
            (tail = [] \/ exists ctx, tail = [Sws_reinit ctx (e_sws_reinit e)])) /\
         (e_shm_open e <> -1 -> e_ftruncate e <> -1 ->
          e_mmap e <> MAP_FAILED ->
          mmap_fd (vo_priv v') = e_shm_open e /\
          buffer (vo_priv v') = e_mmap e /\
          In (e_mmap e,
              CInt.wrap (CInt.umul (CInt.mul (width (vo_priv v2))
                                             (height (vo_priv v2))) depth))
             (maps (os v')) /\
          exists region,
            shm (os v') = Some region /\
            List.length region
            = Z.to_nat (CInt.wrap (CInt.umul (CInt.mul (width (vo_priv v2))
                                               (height (vo_priv v2))) depth)))).
  { intros Hc v' E. rewrite Hdraw, Hc in E.
    destruct Hprep as (prep & Hpt & Hp1 & Hp2).
    clearbody v2.
    destruct (frame (vo_priv v2)) as [img|] eqn:Himg;
      [|rewrite Hcomp in E; discriminate].
    destruct Hcomp as (v3 & Ec & Hfr3 & Ht3).
    rewrite Ec in E.
    destruct (draw_frame_composite_effect _ _ _ f _ v3 Ec)
      as (_ & _ & _ & _ & _ & Hs3 & _ & Hw3 & Hh3 & _).
    cbn in Hs3, Hw3, Hh3.
    destruct (draw_frame_publish_effect e f v3 v' E)
      as (Hs & _ & _ & _ & _ & Hfr & Hfd & _ & Hheld).
    pose proof (draw_frame_publish_calls e f v3 v' _ E Hfr3) as Ht.
    pose proof (draw_frame_publish_cases e f v3 v' E) as Hcases.
    cbv zeta in Hcases.
    rewrite Hw3, Hh3 in Ht, Hcases. cbn [stride0 composited] in Ht.
    assert (Hst : stride0 (composited mp_sws_scale mp_image_clear
                             osd_draw_on_image f (vo_priv v2) img)
                  = stride0 img)
      by (unfold composited; destruct (current f); reflexivity).
    rewrite Hst in Ht.
    split; [congruence|].
    exists img, prep.
    split; [reflexivity|]. split; [congruence|].
    split.
    { apply new_events_app. rewrite Ht, Ht3, Hpt.
      repeat rewrite <- app_assoc. reflexivity. }
    split; [exact Hp1|]. split; [exact Hp2|].
    intros N1 N2 N3.
    split; [exact Hfd|].
    destruct Hheld as [(X & _)|[(_ & [X|X] & _)|(_ & _ & _ & _ & _ & Hb)]];
      try contradiction.
    split; [exact Hb|].
    destruct Hcases as [(X & _)|[(_ & X & _)|[(_ & _ & X & _)|
      (_ & _ & _ & line & stride & tail & region & _ & _ & Hshm & Hlen & Hin)]]];
      try contradiction.
    split; [exact Hin|]. exists region. split; assumption. }
  split; [|split; [|split; [|split]]]; [| | | exact Hwork | exact Hstored].
  - intros Hc. split; [exact (Hskip Hc)|]. split; [exact Hos|].
    rewrite Hp. reflexivity.
  - split.
    + intros (v' & E & Hs & _).
      destruct (repeat f && negb (redraw f) && unchanged) eqn:Hc;
        [reflexivity|].
      destruct (Hwork eq_refl v' E) as (Hs' & _). congruence.
    + intros Hc. eexists. split; [exact (Hskip Hc)|].
      split; [reflexivity|].
      apply new_events_app. cbn. rewrite Hos, app_nil_r. reflexivity.
  - intros Hc img Himg Hcase. rewrite Hdraw, Hc.
    clearbody v2. rewrite Himg in Hcomp.
    destruct Hcomp as (v3 & Ec & Hfr3 & _). rewrite Ec.
    destruct (draw_frame_composite_effect _ _ _ f _ v3 Ec)
      as (_ & _ & _ & _ & _ & _ & _ & Hw3 & Hh3 & _).
    cbn in Hw3, Hh3.
    apply (draw_frame_publish_returns e f v3 _ Hfr3).
    rewrite Hw3, Hh3. exact Hcase.
Qed.

(** A repeat on an unchanged canvas is skipped.  The same repeat after the
    window went from 960x600 to 800x500 pixels returns, the raster the
    reconfiguration allocated being large enough, with the mark cleared and
    the frame composited and transferred. *)
Lemma draw_frame_skip_decision_witness :
  draw_frame scale0 clear0 osd0 env0 repeated_frame vo_ready
    = Some (with_priv (set_skip_frame_draw true)
              (update_canvas_dimensions env0 vo_ready)) /\
  (dwidth vo_presented, dheight vo_presented) = (960, 600) /\
  (exists v',
     draw_frame scale0 clear0 osd0 env_resized repeated_frame vo_presented
     = Some v') /\
  (dwidth vo_resized, dheight vo_resized) = (800, 500) /\
  skip_frame_draw (vo_priv vo_resized) = false /\
  skipn 4 (new_events vo_presented vo_resized) =
    [ Image_new_ref; Sws_scale (mk_rect 0 0 8 4);
      Osd_draw (mk_osd_res 8 4) 0;
      Shm_open SHM_NAME 3; Ftruncate 3 128 0; Mmap 128 3 4096;
      Memcpy_pic 32 4 32 64; Image_unref ].
Proof.
  split.
  { pose proof (draw_frame_skip_decision scale0 clear0 osd0 env0
                  repeated_frame vo_ready) as H.
    cbv zeta in H. destruct H as (H & _).
    apply H. vm_compute. reflexivity. }
  split; [vm_compute; reflexivity|].
  pose proof (draw_frame_skip_decision scale0 clear0 osd0 env_resized
                repeated_frame vo_presented) as H.
  cbv zeta in H. destruct H as (_ & _ & Hret & Hwork & _).
  match type of Hret with
  | ?A -> _ => assert (Hc : A) by (vm_compute; reflexivity)
  end.
  specialize (Hret Hc (mk_image 8 4 64 raster_bytes0)).
  specialize (Hwork Hc).
  match type of Hret with
  | ?A -> _ => assert (Himg : A) by (vm_compute; reflexivity)
  end.
  specialize (Hret Himg).
  match type of Hret with
  | ?A -> _ =>
      assert (Hfit : A)
        by (do 3 right; unfold raster_fits; vm_compute;
            repeat split; discriminate)
  end.
  split; [exact (Hret Hfit)|].
  split; [vm_compute; reflexivity|].
  assert (E : draw_frame scale0 clear0 osd0 env_resized repeated_frame
                vo_presented = Some vo_resized)
    by (vm_compute; reflexivity).
  destruct (Hwork vo_resized E) as (Hs & _).
  split; [exact Hs|].
  vm_compute. reflexivity.
Defined.

(** C3 with "did not change since the previous draw" in place of the stored
    dimensions fails where a reconfiguration comes between two draws: the
    first frame is drawn and presented on a canvas of 960x600 pixels, the
    window shrinks to 800x500, the host's pan-and-scan request reconfigures
    the driver, which stores the new size, and the repeat drawn next on the
    800x500 canvas is marked skippable without a single call. *)
Lemma draw_frame_skips_resize_seen_by_reconfig :
  draw_frame scale0 clear0 osd0 env0 new_frame vo_ready = Some vo_drawn /\
  canvas vo_drawn = (960, 600, true) /\
  control env_resized VOCTRL_SET_PANSCAN (flip_page vo_drawn)
    = (VO_TRUE, vo_panscan) /\
  draw_frame scale0 clear0 osd0 env_resized repeated_frame vo_panscan
    = Some vo_panscan_repeated /\
  canvas vo_panscan_repeated = (800, 500, true) /\
  skip_frame_draw (vo_priv vo_panscan_repeated) = true /\
  new_events vo_panscan vo_panscan_repeated = [].
Proof.
  repeat (split; [vm_compute; reflexivity|]). vm_compute. reflexivity.
Qed.
